(** * Construct Hub: package discovery and the npmjs package canary

    A shallow embedding of the two constructs
      - [Discovery]           (backend/discovery/index.ts)
      - [NpmJsPackageCanary]  (package-canary construct)
    together with a model of the discovery handler they deploy.

    The constructs are pure wiring: their constructors create child
    resources in a construct scope and their methods build metric
    descriptions out of object literals.  Both are embedded as they are
    written: the constructor as a computation in a small state monad over
    the scope, the object literals as evaluated member lists. *)

From Stdlib Require Import ZArith String List Bool Lia.
From stdpp Require Import base option list gmap strings.

Local Open Scope string_scope.
Local Open Scope list_scope.
Local Open Scope Z_scope.

(* ===================================================================== *)
(** ** The part of the CDK the constructs use                            *)
(* ===================================================================== *)

Inductive TimeUnit := Milliseconds | Seconds | Minutes | Hours | Days.

(** [Duration]: an amount and its unit, as [Duration.minutes(15)] builds it. *)
Record Duration := mkDuration { amount : Z; timeUnit : TimeUnit }.

Module Duration.
Definition millis (n : Z) : Duration := mkDuration n Milliseconds.
Definition seconds (n : Z) : Duration := mkDuration n Seconds.
Definition minutes (n : Z) : Duration := mkDuration n Minutes.
Definition hours (n : Z) : Duration := mkDuration n Hours.
Definition days (n : Z) : Duration := mkDuration n Days.

Definition unitMillis (u : TimeUnit) : Z :=
  match u with
  | Milliseconds => 1
  | Seconds => 1000
  | Minutes => 60000
  | Hours => 3600000
  | Days => 86400000
  end.

Definition toMilliseconds (d : Duration) : Z := amount d * unitMillis (timeUnit d).
Definition toSeconds (d : Duration) : Z := toMilliseconds d / 1000.
Definition toMinutes (d : Duration) : Z := toMilliseconds d / 60000.
Definition toDays (d : Duration) : Z := toMilliseconds d / 86400000.
End Duration.

Inductive Statistic := SAMPLE_COUNT | AVERAGE | SUM | MINIMUM | MAXIMUM.

(** Values that occur as properties of the object literals of the source. *)
Inductive JsValue :=
| VUndefined
| VString (s : string)
| VNumber (n : Z)
| VDuration (d : Duration)
| VStatistic (s : Statistic).

(** A JavaScript object used as a property bag. *)
Abbreviation JsObject := (gmap string JsValue).

(** One member of an object literal: [key: value] or [...source].
    [opts?: MetricOptions] is [option JsObject]: spreading [undefined]
    copies nothing. *)
Inductive Member :=
| Field (key : string) (value : JsValue)
| Spread (source : option JsObject).

(** Members are evaluated left to right; a later member overwrites the
    properties an earlier one has set. *)
Definition evalMember (acc : JsObject) (m : Member) : JsObject :=
  match m with
  | Field k v => <[k:=v]> acc
  | Spread None => acc
  | Spread (Some o) => o ∪ acc
  end.

Definition objectLiteral (ms : list Member) : JsObject :=
  fold_left evalMember ms ∅.

(** JavaScript truthiness, which [a || b] tests. *)
Definition truthy (v : JsValue) : bool :=
  match v with
  | VUndefined => false
  | VString s => negb (String.eqb s "")
  | VNumber n => negb (n =? 0)
  | VDuration _ => true
  | VStatistic _ => true
  end.

(** The periods the Metric class accepts: a whole number of seconds that
    is 1, 5, 10, 30 or a multiple of 60 (a Duration is never negative). *)
Definition validPeriod (d : Duration) : bool :=
  (0 <=? amount d)
  && (Duration.toMilliseconds d mod 1000 =? 0)
  && ((Duration.toSeconds d =? 1) || (Duration.toSeconds d =? 5)
      || (Duration.toSeconds d =? 10) || (Duration.toSeconds d =? 30)
      || (Duration.toSeconds d mod 60 =? 0)).

(** [new Metric(props)].  The constructor of the CDK is a function of its
    props, so a metric is represented by the props it was built from
    ([metricProps], the [MetricProps] object); its fields are read by the
    observations below, which do what the constructor does:
      - [metricName] and [namespace] are kept as given;
      - [period] is [props.period || Duration.minutes(5)], and the
        constructor throws unless it is a valid period;
      - [statistic] is [props.statistic || 'Average'], normalized by the
        library's parser, which throws on what it does not accept;
      - no other property of the props is a field here.
    [None] for [period] or [statistic] stands for a constructor that
    throws; [constructs] tells whether it returns. *)
Record Metric := mkMetric { metricProps : JsObject }.

Definition metricName (m : Metric) : option JsValue := metricProps m !! "metricName".
Definition namespace (m : Metric) : option JsValue := metricProps m !! "namespace".

Definition period (m : Metric) : option JsValue :=
  match metricProps m !! "period" with
  | Some (VDuration d) => if validPeriod d then Some (VDuration d) else None
  | Some v => if truthy v then None else Some (VDuration (Duration.minutes 5))
  | None => Some (VDuration (Duration.minutes 5))
  end.

(** [normalizeStatistic] is the library's parser of statistic strings
    ([None] when it throws); the members of the [Statistic] enum are
    statistics as they are. *)
Definition statistic (normalizeStatistic : string → option JsValue) (m : Metric)
    : option JsValue :=
  match metricProps m !! "statistic" with
  | Some (VStatistic s) => Some (VStatistic s)
  | Some (VString s) =>
      if String.eqb s "" then Some (VStatistic AVERAGE) else normalizeStatistic s
  | Some v => if truthy v then None else Some (VStatistic AVERAGE)
  | None => Some (VStatistic AVERAGE)
  end.

Definition constructs (normalizeStatistic : string → option JsValue) (m : Metric) : bool :=
  match period m, statistic normalizeStatistic m with
  | Some _, Some _ => true
  | _, _ => false
  end.

(** [BlockPublicAccess]: the four S3 public-access switches. *)
Record BlockPublicAccess := mkBlockPublicAccess {
  blockPublicAcls : bool;
  blockPublicPolicy : bool;
  ignorePublicAcls : bool;
  restrictPublicBuckets : bool
}.

Definition BLOCK_ALL : BlockPublicAccess := mkBlockPublicAccess true true true true.
Definition BLOCK_ACLS : BlockPublicAccess := mkBlockPublicAccess true false true false.

Record LifecycleRule := mkLifecycleRule {
  prefix : option string;
  expiration : option Duration
}.

Record BucketProps := mkBucketProps {
  blockPublicAccess : option BlockPublicAccess;
  lifecycleRules : list LifecycleRule
}.

(** A value that is only known at deployment: an attribute of a child
    construct, or a plain string. *)
Inductive Token :=
| Literal (s : string)
| BucketNameOf (constructId : string)
| BucketNameOfImported (bucket : string).

Record FunctionProps := mkFunctionProps {
  architecture : option string;
  description : string;
  memorySize : Z;
  reservedConcurrentExecutions : option Z;
  timeout : Duration;
  environment : gmap string Token
}.

Inductive Schedule :=
| rate (d : Duration)
| expression (e : string).

Record RuleProps := mkRuleProps {
  ruleDescription : option string;
  schedule : Schedule;
  targets : list string
}.

Inductive ComparisonOperator :=
| GREATER_THAN_OR_EQUAL_TO_THRESHOLD
| GREATER_THAN_THRESHOLD
| LESS_THAN_THRESHOLD
| LESS_THAN_OR_EQUAL_TO_THRESHOLD.

Record AlarmProps := mkAlarmProps {
  metric : Metric;
  alarmDescription : string;
  comparisonOperator : ComparisonOperator;
  evaluationPeriods : nat;
  threshold : Z
}.

Inductive Resource :=
| RBucket (p : BucketProps)
| RFunction (p : FunctionProps)
| RRule (p : RuleProps)
| RAlarm (p : AlarmProps).

Inductive Access := ReadWrite | SendMessages.

(** [resource.grantX(grantee, objectsKeyPattern?)]. *)
Record Grant := mkGrant {
  onResource : string;
  access : Access;
  grantee : string;
  keyPattern : option string
}.

(** The scope a constructor builds into: the child constructs it has
    created (newest last), the grants it has made, the functions it has
    handed to the monitoring, and the ordering dependencies it has added. *)
Record Scope := mkScope {
  children : list (string * Resource);
  grants : list Grant;
  watched : list (string * string);
  dependencies : list (string * Grant)
}.

Definition emptyScope : Scope := mkScope [] [] [] [].

(** Constructors run in a state monad over the scope. *)
Definition Synth (A : Type) : Type := Scope → A * Scope.

Definition synth_ret {A} (a : A) : Synth A := λ s, (a, s).
Definition synth_bind {A B} (c : Synth A) (k : A → Synth B) : Synth B :=
  λ s, let '(a, s') := c s in k a s'.

Notation "'do' x <- c ; k" := (synth_bind c (λ x, k))
  (at level 10, x name, c at level 100, k at level 200).
Notation "'do_' c ; k" := (synth_bind c (λ _, k))
  (at level 10, c at level 100, k at level 200).

(** [new C(this, id, props)]: adds the child and returns its id. *)
Definition newChild (id : string) (r : Resource) : Synth string :=
  λ s, (id, mkScope (children s ++ [(id, r)]) (grants s) (watched s) (dependencies s)).

Definition addGrant (g : Grant) : Synth Grant :=
  λ s, (g, mkScope (children s) (grants s ++ [g]) (watched s) (dependencies s)).

Definition watchLambdaFunction (title fn : string) : Synth unit :=
  λ s, (tt, mkScope (children s) (grants s) (watched s ++ [(title, fn)]) (dependencies s)).

Definition addDependency (dependent : string) (on : Grant) : Synth unit :=
  λ s, (tt, mkScope (children s) (grants s) (watched s) (dependencies s ++ [(dependent, on)])).

Definition findChild (id : string) (s : Scope) : option Resource :=
  snd <$> List.find (λ c, String.eqb (fst c) id) (children s).

(** [fn.metric(name, props)] of a lambda function: the function's own
    metric in the [AWS/Lambda] namespace; [metricErrors] and
    [metricInvocations] sum by default. *)
Definition functionMetric (name : string) (props : option JsObject) : Metric :=
  mkMetric (objectLiteral [
    Field "namespace" (VString "AWS/Lambda");
    Field "metricName" (VString name);
    Spread props ]).

Definition functionMetricErrors (opts : option JsObject) : Metric :=
  functionMetric "Errors"
    (Some (objectLiteral [ Field "statistic" (VStatistic SUM); Spread opts ])).

Definition functionMetricInvocations (opts : option JsObject) : Metric :=
  functionMetric "Invocations"
    (Some (objectLiteral [ Field "statistic" (VStatistic SUM); Spread opts ])).

Definition functionMetricThrottles (opts : option JsObject) : Metric :=
  functionMetric "Throttles"
    (Some (objectLiteral [ Field "statistic" (VStatistic SUM); Spread opts ])).

Definition functionMetricDuration (opts : option JsObject) : Metric :=
  functionMetric "Duration" opts.

(** [metric.createAlarm(scope, id, props)]. *)
Definition createAlarm (m : Metric) (id description : string)
    (op : ComparisonOperator) (periods : nat) (thr : Z) : Synth string :=
  newChild id (RAlarm (mkAlarmProps m description op periods thr)).

(** The id names a lambda function created in the scope. *)
Definition isFunctionIn (s : Scope) (id : string) : bool :=
  match findChild id s with
  | Some (RFunction _) => true
  | _ => false
  end.

(** The functions the rules of a scope trigger. *)
Definition ruleTargets (s : Scope) : list string :=
  mbind (λ ch : string * Resource,
           match ch.2 with RRule r => targets r | _ => [] end) (children s).

(** An accessor fixes [metricName] and [namespace] when they do not depend
    on [opts]. *)
Definition fixesNameAndNamespace (accessor : option JsObject → Metric) : Prop :=
  ∀ opts, metricName (accessor opts) = metricName (accessor None)
          ∧ namespace (accessor opts) = namespace (accessor None).

(** *** Services the constructs configure *)

(** S3 lifecycle: a rule covers the keys its prefix is a prefix of (every
    key when it has none); the expirations a bucket applies to a key are
    those of the rules that cover it. *)
Definition ruleCovers (r : LifecycleRule) (key : string) : bool :=
  match prefix r with
  | None => true
  | Some p => String.prefix p key
  end.

Definition expirationsOf (b : BucketProps) (key : string) : list Duration :=
  omap expiration (List.filter (λ r, ruleCovers r key) (lifecycleRules b)).

(** CloudWatch: a datapoint breaches according to the comparison operator;
    the alarm fires when the newest [evaluationPeriods] datapoints (newest
    first) all breach. *)
Definition breaches (op : ComparisonOperator) (thr v : Z) : bool :=
  match op with
  | GREATER_THAN_OR_EQUAL_TO_THRESHOLD => thr <=? v
  | GREATER_THAN_THRESHOLD => thr <? v
  | LESS_THAN_THRESHOLD => v <? thr
  | LESS_THAN_OR_EQUAL_TO_THRESHOLD => v <=? thr
  end.

Definition alarmFires (a : AlarmProps) (datapoints : list Z) : bool :=
  (evaluationPeriods a <=? length datapoints)%nat
  && forallb (breaches (comparisonOperator a) (threshold a))
             (firstn (evaluationPeriods a) datapoints).

(** Lambda: an invocation is admitted only while fewer executions are in
    flight than the function's reserved concurrency (it is throttled
    otherwise); a function without the setting is not capped. *)
Inductive LambdaEvent := Invoke | Finish.

Definition lambdaStep (reserved : option Z) (inFlight : Z) (e : LambdaEvent) : Z :=
  match e with
  | Invoke =>
      match reserved with
      | Some n => if inFlight <? n then inFlight + 1 else inFlight
      | None => inFlight + 1
      end
  | Finish => if 0 <? inFlight then inFlight - 1 else inFlight
  end.

Definition inFlightAfter (reserved : option Z) (es : list LambdaEvent) : Z :=
  fold_left (lambdaStep reserved) es 0.

(* ===================================================================== *)
(** ** backend/discovery/index.ts                                        *)
(* ===================================================================== *)

(** The names [./constants.lambda-shared] exports.  The construct only
    passes them on, so their values are a parameter of the embedding. *)
Record DiscoveryConstants := mkDiscoveryConstants {
  STAGED_KEY_PREFIX : string;
  METRIC_NAMESPACE : string;
  BATCH_PROCESSING_TIME : string;
  CHANGE_COUNT : string;
  PACKAGE_VERSION_AGE : string;
  PACKAGE_VERSION_COUNT : string;
  RELEVANT_PACKAGE_VERSIONS : string;
  REMAINING_TIME : string;
  STAGING_FAILURE_COUNT : string;
  STAGING_TIME : string;
  UNPROCESSABLE_ENTITY : string
}.

Inductive RetentionDays := ONE_DAY | ONE_WEEK | ONE_MONTH | ONE_YEAR | TEN_YEARS.

Record DiscoveryProps := mkDiscoveryProps {
  monitoring : string;
  queue : string;
  queueUrl : string;
  logRetention : option RetentionDays
}.

Module Discovery.

(** The public fields of the construct and the scope it has built. *)
Record Construct := mkConstruct {
  bucket : string;
  alarmErrors : string;
  alarmNoInvocations : string;
  node : Scope
}.

Definition timeout : Duration := Duration.minutes 15.

Section WithConstants.
Variable K : DiscoveryConstants.

Definition constructor (props : DiscoveryProps) : Synth (string * string * string) :=
  do bucket <- newChild "StagingBucket" (RBucket
    (mkBucketProps (Some BLOCK_ALL)
       [ mkLifecycleRule (Some (STAGED_KEY_PREFIX K)) (Some (Duration.days 30)) ]));
  do lambda <- newChild "Default" (RFunction
    (mkFunctionProps None
       "Periodically query npm.js index for new construct libraries"
       10240
       (Some 1)
       timeout
       (<["QUEUE_URL" := Literal (queueUrl props)]>
          (<["BUCKET_NAME" := BucketNameOf bucket]> ∅))));
  do_ addGrant (mkGrant bucket ReadWrite lambda None);
  do_ addGrant (mkGrant (queue props) SendMessages lambda None);
  do_ newChild "ScheduleRule" (RRule (mkRuleProps None (rate timeout) [lambda]));
  do_ watchLambdaFunction "Discovery Function" lambda;
  do alarmErrors <-
    createAlarm
      (functionMetricErrors
         (Some (objectLiteral [ Field "period" (VDuration (Duration.minutes 15)) ])))
      "ErrorsAlarm"
      "The discovery function (on npmjs.com) failed to run"
      GREATER_THAN_OR_EQUAL_TO_THRESHOLD 1 1;
  do alarmNoInvocations <-
    createAlarm
      (functionMetricInvocations
         (Some (objectLiteral [ Field "period" (VDuration (Duration.minutes 15)) ])))
      "NoInvocationsAlarm"
      "The discovery function (on npmjs.com) is not running as scheduled"
      LESS_THAN_THRESHOLD 1 1;
  synth_ret (bucket, alarmErrors, alarmNoInvocations).

(** [new Discovery(scope, id, props)]. *)
Definition new (props : DiscoveryProps) : Construct :=
  let '((b, e, n), s) := constructor props emptyScope in
  mkConstruct b e n s.

Definition metricBatchProcessingTime (opts : option JsObject) : Metric :=
  mkMetric (objectLiteral [
    Field "metricName" (VString (BATCH_PROCESSING_TIME K));
    Field "namespace" (VString (METRIC_NAMESPACE K));
    Field "period" (VDuration timeout);
    Field "statistic" (VStatistic AVERAGE);
    Spread opts ]).

Definition metricChangeCount (opts : option JsObject) : Metric :=
  mkMetric (objectLiteral [
    Field "metricName" (VString (CHANGE_COUNT K));
    Field "namespace" (VString (METRIC_NAMESPACE K));
    Field "period" (VDuration timeout);
    Field "statistic" (VStatistic SUM);
    Spread opts ]).

Definition metricPackageVersionAge (opts : option JsObject) : Metric :=
  mkMetric (objectLiteral [
    Field "metricName" (VString (PACKAGE_VERSION_AGE K));
    Field "namespace" (VString (METRIC_NAMESPACE K));
    Field "period" (VDuration timeout);
    Field "statistic" (VStatistic MAXIMUM);
    Spread opts ]).

Definition metricPackageVersionCount (opts : option JsObject) : Metric :=
  mkMetric (objectLiteral [
    Field "metricName" (VString (PACKAGE_VERSION_COUNT K));
    Field "namespace" (VString (METRIC_NAMESPACE K));
    Field "period" (VDuration timeout);
    Field "statistic" (VStatistic SUM);
    Spread opts ]).

Definition metricRelevantPackageVersions (opts : option JsObject) : Metric :=
  mkMetric (objectLiteral [
    Field "metricName" (VString (RELEVANT_PACKAGE_VERSIONS K));
    Field "namespace" (VString (METRIC_NAMESPACE K));
    Field "period" (VDuration timeout);
    Field "statistic" (VStatistic SUM);
    Spread opts ]).

Definition metricRemainingTime (opts : option JsObject) : Metric :=
  mkMetric (objectLiteral [
    Field "metricName" (VString (REMAINING_TIME K));
    Field "namespace" (VString (METRIC_NAMESPACE K));
    Field "period" (VDuration timeout);
    Field "statistic" (VStatistic AVERAGE);
    Spread opts ]).

Definition metricStagingFailureCount (opts : option JsObject) : Metric :=
  mkMetric (objectLiteral [
    Field "metricName" (VString (STAGING_FAILURE_COUNT K));
    Field "namespace" (VString (METRIC_NAMESPACE K));
    Field "period" (VDuration timeout);
    Field "statistic" (VStatistic SUM);
    Spread opts ]).

Definition metricStagingTime (opts : option JsObject) : Metric :=
  mkMetric (objectLiteral [
    Field "metricName" (VString (STAGING_TIME K));
    Field "namespace" (VString (METRIC_NAMESPACE K));
    Field "period" (VDuration timeout);
    Field "statistic" (VStatistic AVERAGE);
    Spread opts ]).

Definition metricUnprocessableEntity (opts : option JsObject) : Metric :=
  mkMetric (objectLiteral [
    Field "metricName" (VString (UNPROCESSABLE_ENTITY K));
    Field "namespace" (VString (METRIC_NAMESPACE K));
    Field "period" (VDuration timeout);
    Field "statistic" (VStatistic SUM);
    Spread opts ]).

(** The accessors of the class with the metric name each one sets. *)
Definition metricAccessors : list (string * (option JsObject → Metric)) :=
  [ (BATCH_PROCESSING_TIME K, metricBatchProcessingTime);
    (CHANGE_COUNT K, metricChangeCount);
    (PACKAGE_VERSION_AGE K, metricPackageVersionAge);
    (PACKAGE_VERSION_COUNT K, metricPackageVersionCount);
    (RELEVANT_PACKAGE_VERSIONS K, metricRelevantPackageVersions);
    (REMAINING_TIME K, metricRemainingTime);
    (STAGING_FAILURE_COUNT K, metricStagingFailureCount);
    (STAGING_TIME K, metricStagingTime);
    (UNPROCESSABLE_ENTITY K, metricUnprocessableEntity) ].

(** The children the constructor creates, by kind. *)
Definition stagingBucket (d : Construct) : option BucketProps :=
  match findChild (bucket d) (node d) with
  | Some (RBucket p) => Some p
  | _ => None
  end.

Definition handler (d : Construct) : option FunctionProps :=
  match findChild "Default" (node d) with
  | Some (RFunction p) => Some p
  | _ => None
  end.

Definition scheduleRule (d : Construct) : option RuleProps :=
  match findChild "ScheduleRule" (node d) with
  | Some (RRule p) => Some p
  | _ => None
  end.

Definition alarm (id : string) (d : Construct) : option AlarmProps :=
  match findChild id (node d) with
  | Some (RAlarm p) => Some p
  | _ => None
  end.

(** The principals the construct lets write to a resource. *)
Definition writers (resource : string) (d : Construct) : list string :=
  grantee <$> List.filter
    (λ g, String.eqb (onResource g) resource
          && match access g with ReadWrite => true | SendMessages => false end)
    (grants (node d)).
End WithConstants.

End Discovery.

(* ===================================================================== *)
(** ** The npmjs package canary construct                                *)
(* ===================================================================== *)

(** The names [./constants] exports to the canary construct. *)
Record CanaryConstants := mkCanaryConstants {
  CONSTRUCT_HUB_BASE_URL : string;
  PACKAGE_CANARY_BUCKET_NAME : string;
  PACKAGE_NAME : string;
  STATE_PREFIX : string;
  STATE_SUFFIX : string;
  METRICS_NAMESPACE : string;
  DWELL_TIME : string;
  TIME_TO_CATALOG : string;
  TRACKED_VERSION_COUNT : string;
  NPM_REPLICA_LAG : string
}.

Record NpmJsPackageCanaryProps := mkNpmJsPackageCanaryProps {
  canaryBucket : string;
  constructHubBaseUrl : string;
  packageName : string
}.

Module NpmJsPackageCanary.

Record Construct := mkConstruct {
  handler : string;
  node : Scope
}.

Section WithConstants.
Variable K : CanaryConstants.
(** [gravitonLambdaIfAvailable(this)] and [scope.node.path] depend on
    the enclosing stack only. *)
Variable gravitonLambdaIfAvailable : option string.
Variable scopePath : string.

Definition constructor (props : NpmJsPackageCanaryProps) : Synth string :=
  do handler <- newChild "Resource" (RFunction
    (mkFunctionProps gravitonLambdaIfAvailable
       ("[" +:+ scopePath +:+ "/PackageCanary] Monitors "
            +:+ packageName props +:+ " versions availability")
       10024
       None
       (Duration.minutes 1)
       (<[PACKAGE_NAME K := Literal (packageName props)]>
          (<[PACKAGE_CANARY_BUCKET_NAME K := BucketNameOfImported (canaryBucket props)]>
             (<[CONSTRUCT_HUB_BASE_URL K := Literal (constructHubBaseUrl props)]>
                (<["AWS_EMF_ENVIRONMENT" := Literal "Local"]> ∅))))));
  do grant <- addGrant
    (mkGrant (canaryBucket props) ReadWrite handler
       (Some (STATE_PREFIX K +:+ "*" +:+ STATE_SUFFIX K)));
  do schedule <- newChild "Schedule" (RRule
    (mkRuleProps (Some "Scheduled executions of the NpmJS package canary")
       (rate (Duration.minutes 1))
       [handler]));
  do_ addDependency schedule grant;
  synth_ret handler.

Definition new (props : NpmJsPackageCanaryProps) : Construct :=
  let '(h, s) := constructor props emptyScope in
  mkConstruct h s.

Definition metricDwellTime (opts : option JsObject) : Metric :=
  mkMetric (objectLiteral [
    Field "period" (VDuration (Duration.minutes 1));
    Field "statistic" (VStatistic MAXIMUM);
    Spread opts;
    Field "metricName" (VString (DWELL_TIME K));
    Field "namespace" (VString (METRICS_NAMESPACE K)) ]).

Definition metricTimeToCatalog (opts : option JsObject) : Metric :=
  mkMetric (objectLiteral [
    Field "period" (VDuration (Duration.minutes 1));
    Field "statistic" (VStatistic MAXIMUM);
    Spread opts;
    Field "metricName" (VString (TIME_TO_CATALOG K));
    Field "namespace" (VString (METRICS_NAMESPACE K)) ]).

Definition metricTrackedVersionCount (opts : option JsObject) : Metric :=
  mkMetric (objectLiteral [
    Field "period" (VDuration (Duration.minutes 1));
    Field "statistic" (VStatistic MAXIMUM);
    Spread opts;
    Field "metricName" (VString (TRACKED_VERSION_COUNT K));
    Field "namespace" (VString (METRICS_NAMESPACE K)) ]).

Definition metricEstimatedNpmReplicaLag (opts : option JsObject) : Metric :=
  mkMetric (objectLiteral [
    Field "period" (VDuration (Duration.minutes 1));
    Field "statistic" (VStatistic MAXIMUM);
    Spread opts;
    Field "metricName" (VString (NPM_REPLICA_LAG K));
    Field "namespace" (VString (METRICS_NAMESPACE K)) ]).

(** The last four accessors hand [opts] to the handler, a lambda function. *)
Definition metricErrors (opts : option JsObject) : Metric :=
  functionMetricErrors opts.

Definition metricInvocations (opts : option JsObject) : Metric :=
  functionMetricInvocations opts.

Definition metricThrottles (opts : option JsObject) : Metric :=
  functionMetricThrottles opts.

Definition metricDuration (opts : option JsObject) : Metric :=
  functionMetricDuration opts.

(** The accessors that build their own metric, with the name each sets. *)
Definition metricAccessors : list (string * (option JsObject → Metric)) :=
  [ (DWELL_TIME K, metricDwellTime);
    (TIME_TO_CATALOG K, metricTimeToCatalog);
    (TRACKED_VERSION_COUNT K, metricTrackedVersionCount);
    (NPM_REPLICA_LAG K, metricEstimatedNpmReplicaLag) ].

(** The accessors that delegate, with the handler's accessor each calls. *)
Definition handlerMetricAccessors
    : list ((option JsObject → Metric) * (option JsObject → Metric)) :=
  [ (metricErrors, functionMetricErrors);
    (metricInvocations, functionMetricInvocations);
    (metricThrottles, functionMetricThrottles);
    (metricDuration, functionMetricDuration) ].

(** Every metric accessor of the class. *)
Definition allMetricAccessors : list (option JsObject → Metric) :=
  (snd <$> metricAccessors) ++ (fst <$> handlerMetricAccessors).

Definition scheduleRule (c : Construct) : option RuleProps :=
  match findChild "Schedule" (node c) with
  | Some (RRule p) => Some p
  | _ => None
  end.

Definition handlerProps (c : Construct) : option FunctionProps :=
  match findChild (handler c) (node c) with
  | Some (RFunction p) => Some p
  | _ => None
  end.
End WithConstants.

End NpmJsPackageCanary.

(* ===================================================================== *)
(** ** The discovery handler (the Scanner and its components)            *)
(* ===================================================================== *)

Module Scanner.

(** Modelled from the spec: the handler the Discovery construct deploys
    ([./discovery], the lambda entry point) is not among the sources.
    ChangeRecord (§3): one entry of the registry feed. *)
Record ChangeRecord := mkChangeRecord {
  sequenceId : Z;
  name : string;
  version : string;
  publishedAt : Z;
  payload : string
}.

(** Modelled from the spec: the three verdicts of the Relevance Filter
    (§4.3) of the missing handler. *)
Inductive Classification := Irrelevant | Malformed | Candidate.

(** Modelled from the spec: StagedArtifact (§3) of the missing handler. *)
Record StagedArtifact := mkStagedArtifact {
  key : string;
  size : nat
}.

(** Modelled from the spec: Notification (§3) of the missing handler:
    package identity, version, staged object reference. *)
Record Notification := mkNotification {
  package : string;
  packageVersion : string;
  stagedObject : string
}.

(** Modelled from the spec: the errors of the missing Stager (§4.4, §7). *)
Inductive StagingError := FetchFailure | ChecksumMismatch | StorageWriteFailure.

(** Modelled from the spec: the errors that abort a run of the missing
    handler (§7). *)
Inductive RunError := FatalFeedError | DeliveryError | CheckpointError.

(** Modelled from the spec: the durable state outside the missing
    handler (§6): the Checkpoint Store's marker object, the staging
    bucket's objects, and the messages the queue has accepted. *)
Record Services := mkServices {
  checkpoint : option Z;
  objects : gmap string string;
  notifications : list Notification
}.

(** Modelled from the spec: what is fixed for the missing handler: the
    staging key prefix, the derivation of a key from package name and
    version (§4.4), the rules of the Relevance Filter, which read the
    payload only (§4.3), the batch size (§4.2) and the safety margin of
    the Time-Budget Governor (§4.6), in milliseconds. *)
Record Config := mkConfig {
  stagedKeyPrefix : string;
  keyOf : string → string → string;
  classify : string → Classification;
  maxBatch : nat;
  safetyMargin : Z
}.

(** Modelled from the spec: what one run of the missing handler meets
    outside: the feed as the registry retains it (in position order),
    whether reading from a position fails for good, the tarball of a
    version (or the failure to fetch it), whether its checksum matches,
    whether storage takes a write, whether the queue accepts a message,
    whether the Checkpoint Store takes a save, the wall clock at each
    consultation of the governor, and the deadline of the run. *)
Record World := mkWorld {
  feed : list ChangeRecord;
  feedFatal : option Z → bool;
  fetch : ChangeRecord → option string;
  checksumOk : ChangeRecord → string → bool;
  storageWriteOk : string → bool;
  queueAccepts : Notification → bool;
  checkpointSaveOk : Z → bool;
  clock : nat → Z;
  deadline : Z
}.

(** Modelled from the spec: the counters the missing handler emits (§4.1). *)
Record Metrics := mkMetrics {
  changeCount : Z;
  relevantPackageVersions : Z;
  unprocessableEntity : Z;
  stagingFailureCount : Z;
  remainingTime : option Z
}.

(** Modelled from the spec: the counters of the missing handler when a
    run starts. *)
Definition noMetrics : Metrics := mkMetrics 0 0 0 0 None.

(** Modelled from the spec: the observable steps of the missing handler:
    a batch fetch initiated at the n-th consultation of the governor, a
    record counted as unprocessable, a staging attempt and its success,
    a notification attempt and its success, a marker made durable. *)
Inductive Event :=
| Loaded (marker : option Z)
| Fetched (position : option Z) (tick : nat)
| Unprocessable (r : ChangeRecord)
| StageAttempt (r : ChangeRecord) (ok : bool)
| Notified (r : ChangeRecord) (ok : bool)
| Saved (marker : Z).

(** Modelled from the spec: how a run of the missing handler ends:
    stopped by the governor, feed exhausted, aborted by an error.
    [OutOfFuel] is the loop bound of the embedding, never reached by
    [run]. *)
Inductive Outcome := Stopped | Exhausted | Aborted (e : RunError) | OutOfFuel.

(** Modelled from the spec: the Time-Budget Governor (§4.6) of the
    missing handler: pure wall-clock arithmetic. *)
Record Governor := mkGovernor {
  governorDeadline : Z;
  governorMargin : Z
}.

(** Modelled from the spec: [remaining] of the missing governor (§4.6). *)
Definition remaining (g : Governor) (now : Z) : Z := governorDeadline g - now.

(** Modelled from the spec: [shouldStop] of the missing governor (§4.6):
    the remaining time is below the margin. *)
Definition shouldStop (g : Governor) (now : Z) : bool :=
  remaining g now <? governorMargin g.

(** Modelled from the spec: the default margin of the missing handler,
    "about 2 minutes ahead of the timeout" (§9 and the constructor's
    note). *)
Definition defaultSafetyMargin : Duration := Duration.minutes 2.

(** Modelled from the spec: the result of one run of the missing handler. *)
Record RunResult := mkRunResult {
  outcome : Outcome;
  marker : option Z;
  services : Services;
  metrics : Metrics;
  processed : list (list ChangeRecord);
  trace : list Event
}.

Section WithConfig.
Variable cfg : Config.

(** Modelled from the spec: the verdicts of the missing Relevance Filter
    as tests on a record (§4.3). *)
Definition isMalformed (r : ChangeRecord) : bool :=
  match classify cfg (payload r) with Malformed => true | _ => false end.

(** Modelled from the spec: see [isMalformed]. *)
Definition isCandidate (r : ChangeRecord) : bool :=
  match classify cfg (payload r) with Candidate => true | _ => false end.

(** Modelled from the spec: the storage key of the missing Stager:
    derived from package name and version, under the staging prefix. *)
Definition stagedKey (c : ChangeRecord) : string :=
  stagedKeyPrefix cfg +:+ keyOf cfg (name c) (version c).

(** Modelled from the spec: [stage] of the missing Stager (§4.4):
    fails on fetch failure, checksum mismatch or storage-write
    failure, and otherwise writes the tarball under the key. *)
Definition stage (w : World) (c : ChangeRecord) (objs : gmap string string)
    : (StagingError + StagedArtifact) * gmap string string :=
  match fetch w c with
  | None => (inl FetchFailure, objs)
  | Some tarball =>
      if checksumOk w c tarball then
        if storageWriteOk w (stagedKey c) then
          (inr (mkStagedArtifact (stagedKey c) (String.length tarball)),
           <[stagedKey c := tarball]> objs)
        else (inl StorageWriteFailure, objs)
      else (inl ChecksumMismatch, objs)
  end.

(** Modelled from the spec: the staging pass of the missing Scanner
    (§4.1): every candidate is staged; a failure is counted and the
    record skipped. *)
Fixpoint stageAll (w : World) (cs : list ChangeRecord) (objs : gmap string string)
    : list (ChangeRecord * StagedArtifact) * Z * gmap string string * list Event :=
  match cs with
  | [] => ([], 0, objs, [])
  | c :: rest =>
      match stage w c objs with
      | (inr a, objs1) =>
          let '(staged, failures, objs2, ev) := stageAll w rest objs1 in
          ((c, a) :: staged, failures, objs2, StageAttempt c true :: ev)
      | (inl _, objs1) =>
          let '(staged, failures, objs2, ev) := stageAll w rest objs1 in
          (staged, failures + 1, objs2, StageAttempt c false :: ev)
      end
  end.

(** Modelled from the spec: the message the missing Notifier sends for a
    staged artifact (§3). *)
Definition notificationOf (s : ChangeRecord * StagedArtifact) : Notification :=
  mkNotification (name (fst s)) (version (fst s)) (key (snd s)).

(** Modelled from the spec: the notification pass of the missing
    Scanner (§4.1, §4.5): one message per staged artifact; a message
    the queue rejects is fatal for the run. *)
Fixpoint notifyAll (w : World) (staged : list (ChangeRecord * StagedArtifact))
    (q : list Notification) : bool * list Notification * list Event :=
  match staged with
  | [] => (true, q, [])
  | s :: rest =>
      if queueAccepts w (notificationOf s) then
        let '(ok, q', ev) := notifyAll w rest (q ++ [notificationOf s]) in
        (ok, q', Notified (fst s) true :: ev)
      else (false, q, [Notified (fst s) false])
  end.

(** Modelled from the spec: one batch of the missing Scanner (§4.1):
    filter, stage, notify.  The boolean tells whether the batch went
    through (false: a delivery error aborted it). *)
Definition processBatch (w : World) (batch : list ChangeRecord)
    (sv : Services) (mt : Metrics) : bool * Services * Metrics * list Event :=
  let malformed := List.filter isMalformed batch in
  let candidates := List.filter isCandidate batch in
  let '(staged, failures, objs, evStage) := stageAll w candidates (objects sv) in
  let '(ok, q, evNotify) := notifyAll w staged (notifications sv) in
  (ok,
   mkServices (checkpoint sv) objs q,
   mkMetrics (changeCount mt + Z.of_nat (length batch))
             (relevantPackageVersions mt + Z.of_nat (length candidates))
             (unprocessableEntity mt + Z.of_nat (length malformed))
             (stagingFailureCount mt + failures)
             (remainingTime mt),
   (Unprocessable <$> malformed) ++ evStage ++ evNotify).

(** Modelled from the spec: the records the missing Feed Reader returns
    from a position (§4.2): those with a greater sequenceId, all of them
    when there is no position yet. *)
Definition behind (position : option Z) (r : ChangeRecord) : bool :=
  match position with
  | None => true
  | Some p => p <? sequenceId r
  end.

(** Modelled from the spec: [read] of the missing Feed Reader (§4.2):
    the next slice, of at most [maxBatch] records, behind the position. *)
Definition read (w : World) (position : option Z) : list ChangeRecord :=
  firstn (maxBatch cfg) (List.filter (behind position) (feed w)).

(** Modelled from the spec: the marker the missing Scanner advances to
    (§4.1): the highest sequenceId of the batch [r :: rs]. *)
Definition highest (r : ChangeRecord) (rs : list ChangeRecord) : Z :=
  fold_right Z.max (sequenceId r) (sequenceId <$> rs).

(** Modelled from the spec: [save] of the missing Checkpoint Store (§4.7). *)
Definition save (w : World) (m : Z) (sv : Services) : option Services :=
  if checkpointSaveOk w m
  then Some (mkServices (Some m) (objects sv) (notifications sv))
  else None.

(** Modelled from the spec: the governor of a run of the missing
    handler: its deadline and the configured margin. *)
Definition governor (w : World) : Governor :=
  mkGovernor (deadline w) (safetyMargin cfg).

(** Modelled from the spec: the remaining-time metric the missing
    Scanner emits when it stops (§4.1). *)
Definition withRemaining (mt : Metrics) (rem : Z) : Metrics :=
  mkMetrics (changeCount mt) (relevantPackageVersions mt)
            (unprocessableEntity mt) (stagingFailureCount mt) (Some rem).

(** Modelled from the spec: the loop of the missing Scanner (§4.1).
    Before each fetch the governor is consulted; below the margin the
    run stops, persists the current marker and returns.  A batch that
    went through advances the marker to its highest sequenceId, which
    is saved before the next fetch. *)
Fixpoint loop (w : World) (fuel tick : nat) (mk : option Z) (sv : Services)
    (mt : Metrics) : RunResult :=
  match fuel with
  | O => mkRunResult OutOfFuel mk sv mt [] []
  | S fuel' =>
      if shouldStop (governor w) (clock w tick) then
        let mt' := withRemaining mt (remaining (governor w) (clock w tick)) in
        match mk with
        | None => mkRunResult Stopped mk sv mt' [] []
        | Some m =>
            match save w m sv with
            | Some sv' => mkRunResult Stopped mk sv' mt' [] [Saved m]
            | None => mkRunResult (Aborted CheckpointError) mk sv mt' [] []
            end
        end
      else if feedFatal w mk then
        mkRunResult (Aborted FatalFeedError) mk sv mt [] [Fetched mk tick]
      else
        match read w mk with
        | [] => mkRunResult Exhausted mk sv mt [] [Fetched mk tick]
        | r :: rs =>
            let '(ok, sv1, mt1, ev) := processBatch w (r :: rs) sv mt in
            if ok then
              match save w (highest r rs) sv1 with
              | Some sv2 =>
                  let res := loop w fuel' (S tick) (Some (highest r rs)) sv2 mt1 in
                  mkRunResult (outcome res) (marker res) (services res) (metrics res)
                    ((r :: rs) :: processed res)
                    (Fetched mk tick :: ev ++ Saved (highest r rs) :: trace res)
              | None =>
                  mkRunResult (Aborted CheckpointError) mk sv1 mt1 [r :: rs]
                    (Fetched mk tick :: ev)
              end
            else
              mkRunResult (Aborted DeliveryError) mk sv1 mt1 []
                (Fetched mk tick :: ev)
        end
  end.

(** Modelled from the spec: [run] of the missing Scanner: load the
    marker, then loop.  One iteration per record of the feed and one
    more is enough for the loop to end by itself. *)
Definition run (w : World) (sv : Services) : RunResult :=
  let res := loop w (S (length (feed w))) 0 (checkpoint sv) sv noMetrics in
  mkRunResult (outcome res) (marker res) (services res) (metrics res)
    (processed res) (Loaded (checkpoint sv) :: trace res).

(** Modelled from the spec: a sequence of runs of the missing Scanner,
    one at a time (§5), each in the world it finds. *)
Fixpoint runs (ws : list World) (sv : Services) : Services * list Event :=
  match ws with
  | [] => (sv, [])
  | w :: ws' =>
      let res := run w sv in
      let '(sv', ev) := runs ws' (services res) in
      (sv', trace res ++ ev)
  end.

(** A record is processed by a trace when it is staged or notified in it. *)
Definition processes (r : ChangeRecord) (tr : list Event) : Prop :=
  ∃ ok, StageAttempt r ok ∈ tr ∨ Notified r ok ∈ tr.

Definition isStageAttempt (e : Event) : bool :=
  match e with StageAttempt _ _ => true | _ => false end.

Definition stagingAttempts (tr : list Event) : nat :=
  length (List.filter isStageAttempt tr).

(** An event of a batch touches a record of the batch and is no save. *)
Definition touches (e : Event) (r : ChangeRecord) : Prop :=
  e = Unprocessable r ∨ ∃ ok, e = StageAttempt r ok ∨ e = Notified r ok.

(** The records a trace attempts to stage, in order. *)
Definition attempted (tr : list Event) : list ChangeRecord :=
  omap (λ e, match e with StageAttempt r _ => Some r | _ => None end) tr.

(** The marker of the last batch that went through, or the initial
    marker when none did. *)
Definition markerOf (initial : option Z) (batches : list (list ChangeRecord))
    : option Z :=
  match last batches with
  | Some (r :: rs) => Some (highest r rs)
  | _ => initial
  end.

(** The marker the Checkpoint Store holds after a trace. *)
Fixpoint persistedAfter (m : option Z) (tr : list Event) : option Z :=
  match tr with
  | [] => m
  | Saved m' :: tr' => persistedAfter (Some m') tr'
  | _ :: tr' => persistedAfter m tr'
  end.

Definition beyond (m : option Z) (z : Z) : Prop :=
  match m with None => True | Some p => p < z end.

Definition notBelow (m : option Z) (z : Z) : Prop :=
  match m with None => True | Some p => p ≤ z end.

(** A trace respects a persisted marker when every save is at or
    above the marker persisted before it and every record touched
    lies beyond it. *)
Fixpoint respects (m : option Z) (tr : list Event) : Prop :=
  match tr with
  | [] => True
  | Saved m' :: tr' => notBelow m m' ∧ respects (Some m') tr'
  | Unprocessable r :: tr' => beyond m (sequenceId r) ∧ respects m tr'
  | StageAttempt r _ :: tr' => beyond m (sequenceId r) ∧ respects m tr'
  | Notified r _ :: tr' => beyond m (sequenceId r) ∧ respects m tr'
  | _ :: tr' => respects m tr'
  end.
End WithConfig.

End Scanner.

(** *** The platform's view of a run *)

(** Modelled from the spec: how the platform counts the runs of the
    missing handler in one metric period (§7): an aborted run is an
    invocation error, a clean stop is not; every run is an invocation. *)
Definition isInvocationError (o : Scanner.Outcome) : bool :=
  match o with
  | Scanner.Aborted _ => true
  | _ => false
  end.

(** Modelled from the spec: the error count of a period of runs (§7). *)
Definition errorsDatapoint (period : list Scanner.Outcome) : Z :=
  Z.of_nat (length (List.filter isInvocationError period)).

(** Modelled from the spec: the invocation count of a period of runs (§7). *)
Definition invocationsDatapoint (period : list Scanner.Outcome) : Z :=
  Z.of_nat (length period).

(** *** Sample instances, used to exercise the statements below *)

Definition sampleDiscoveryConstants : DiscoveryConstants :=
  mkDiscoveryConstants "staged/" "ConstructHub/Discovery"
    "BatchProcessingTime" "ChangeCount" "PackageVersionAge" "PackageVersionCount"
    "RelevantPackageVersions" "RemainingTime" "StagingFailureCount" "StagingTime"
    "UnprocessableEntity".

Definition sampleDiscoveryProps : DiscoveryProps :=
  mkDiscoveryProps "Monitoring" "IngestionQueue" "https://sqs.example/ingestion" None.

Definition sampleCanaryConstants : CanaryConstants :=
  mkCanaryConstants "CONSTRUCT_HUB_BASE_URL" "PACKAGE_CANARY_BUCKET_NAME" "PACKAGE_NAME"
    "package-canary/" ".state.json" "ConstructHub/PackageCanary"
    "DwellTime" "TimeToCatalog" "TrackedVersionCount" "NpmReplicaLag".

Definition sampleRecord (n : Z) (p : string) : Scanner.ChangeRecord :=
  Scanner.mkChangeRecord n ("pkg-" +:+ p) "1.0.0" 0 p.

Definition sampleConfig : Scanner.Config :=
  Scanner.mkConfig (STAGED_KEY_PREFIX sampleDiscoveryConstants)
    (λ n v, n +:+ "/v" +:+ v +:+ "/package.tgz")
    (λ p, if String.eqb p "malformed" then Scanner.Malformed
          else if String.eqb p "other" then Scanner.Irrelevant
          else Scanner.Candidate)
    30
    (Duration.toMilliseconds Scanner.defaultSafetyMargin).

(** The scenario of §8: the feed holds 101 to 105, 103 is malformed and
    104 fails staging; the clock advances one minute per consultation. *)
Definition sampleWorld : Scanner.World :=
  Scanner.mkWorld
    [ sampleRecord 101 "a"; sampleRecord 102 "b"; sampleRecord 103 "malformed";
      sampleRecord 104 "d"; sampleRecord 105 "e" ]
    (λ _, false)
    (λ r, if Scanner.sequenceId r =? 104 then None else Some "tarball")
    (λ _ _, true)
    (λ _, true)
    (λ _, true)
    (λ _, true)
    (λ n, Z.of_nat n * 60000)
    (0 + Duration.toMilliseconds Discovery.timeout).

(** The same registry a little later: two more records, and a clock that
    advances 800 seconds per consultation, so that the second
    consultation falls within the margin. *)
Definition sampleLaterWorld : Scanner.World :=
  Scanner.mkWorld
    (Scanner.feed sampleWorld ++ [ sampleRecord 106 "f"; sampleRecord 107 "other" ])
    (λ _, false)
    (λ _, Some "tarball")
    (λ _ _, true)
    (λ _, true)
    (λ _, true)
    (λ _, true)
    (λ n, Z.of_nat n * 800000)
    (0 + Duration.toMilliseconds Discovery.timeout).

(** A world whose queue rejects every message. *)
Definition sampleRejectingWorld : Scanner.World :=
  Scanner.mkWorld (Scanner.feed sampleWorld) (λ _, false) (λ _, Some "tarball")
    (λ _ _, true) (λ _, true) (λ _, false) (λ _, true)
    (λ n, Z.of_nat n * 60000)
    (0 + Duration.toMilliseconds Discovery.timeout).

Definition sampleServices : Scanner.Services :=
  Scanner.mkServices (Some 100) ∅ [].

(* ===================================================================== *)
(** ** Properties of the constructs                                      *)
(* ===================================================================== *)

Section ConstructProperties.
Variable K : DiscoveryConstants.
Variable KC : CanaryConstants.
Variable normalizeStatistic : string → option JsValue.

Lemma lookup_spread (o base : JsObject) (k : string) :
  (o ∪ base) !! k = match o !! k with Some v => Some v | None => base !! k end.
Proof.
  rewrite lookup_union.
  destruct (o !! k), (base !! k); reflexivity.
Qed.

Lemma inFlight_bounded (n : Z) (es : list LambdaEvent) (start : Z) :
  0 ≤ n → 0 ≤ start ≤ n → 0 ≤ fold_left (lambdaStep (Some n)) es start ≤ n.
Proof.
  intros Hn. revert start.
  induction es as [|e es IH]; intros start Hs; simpl; [exact Hs|].
  apply IH. destruct e; simpl.
  - destruct (Z.ltb_spec start n); lia.
  - destruct (Z.ltb_spec 0 start); lia.
Qed.

(** C9: for every instantiation of the Discovery construct, the staging
    bucket it creates has [BlockPublicAccess.BLOCK_ALL], that is, all
    four public-access switches on; it creates no other bucket. *)
Theorem staging_bucket_blocks_all_public_access (props : DiscoveryProps) :
  let d := Discovery.new K props in
  ∃ b, Discovery.stagingBucket d = Some b
    ∧ blockPublicAccess b = Some BLOCK_ALL
    ∧ blockPublicAcls BLOCK_ALL && blockPublicPolicy BLOCK_ALL
      && ignorePublicAcls BLOCK_ALL && restrictPublicBuckets BLOCK_ALL = true
    ∧ omap (λ c, match snd c with RBucket p => Some p | _ => None end)
           (children (Discovery.node d)) = [b].
Proof.
  intros d. eexists. repeat split; reflexivity.
Qed.

(** C5: in the staging bucket of the Discovery construct, a key under
    the staged-artifact prefix is covered by exactly one expiration, of
    30 days; a key outside that prefix is covered by none. *)
Theorem staged_prefix_expires_after_30_days (props : DiscoveryProps) (key : string) :
  ∃ b, Discovery.stagingBucket (Discovery.new K props) = Some b
    ∧ expirationsOf b key =
        (if String.prefix (STAGED_KEY_PREFIX K) key then [Duration.days 30] else [])
    ∧ Duration.toDays (Duration.days 30) = 30.
Proof.
  eexists. split; [reflexivity|]. split; [|reflexivity].
  unfold expirationsOf, ruleCovers. simpl.
  destruct (String.prefix (STAGED_KEY_PREFIX K) key); reflexivity.
Qed.

(** C4: the Discovery construct schedules its handler at a fixed rate
    equal to the handler's timeout, 15 minutes; the canary construct
    schedules its handler at a fixed rate of 1 minute, which is strictly
    shorter. *)
Theorem schedules_follow_timeouts (props : DiscoveryProps)
    (arch : option string) (path : string) (cprops : NpmJsPackageCanaryProps) :
  let d := Discovery.new K props in
  let c := NpmJsPackageCanary.new KC arch path cprops in
  (∃ h r, Discovery.handler d = Some h ∧ Discovery.scheduleRule d = Some r
      ∧ schedule r = rate (timeout h)
      ∧ timeout h = Duration.minutes 15
      ∧ targets r = ["Default"])
  ∧ (∃ h r, NpmJsPackageCanary.handlerProps c = Some h
      ∧ NpmJsPackageCanary.scheduleRule c = Some r
      ∧ schedule r = rate (Duration.minutes 1)
      ∧ timeout h = Duration.minutes 1
      ∧ targets r = [NpmJsPackageCanary.handler c])
  ∧ Duration.toMilliseconds (Duration.minutes 1)
      < Duration.toMilliseconds (Duration.minutes 15).
Proof.
  intros d c. split; [|split].
  - do 2 eexists. repeat split; reflexivity.
  - do 2 eexists. repeat split; reflexivity.
  - reflexivity.
Qed.

(** C3: the Discovery construct gives its handler a reserved concurrency
    of exactly 1; under the platform's admission rule, whatever the
    sequence of invocations and completions, at most one execution is
    in flight; and the handler is the only principal the construct
    lets write to the staging bucket, which holds the marker object
    and the staged keys. *)
Theorem at_most_one_scanner_in_flight (props : DiscoveryProps) :
  let d := Discovery.new K props in
  ∃ h, Discovery.handler d = Some h
    ∧ reservedConcurrentExecutions h = Some 1
    ∧ (∀ es, 0 ≤ inFlightAfter (reservedConcurrentExecutions h) es ≤ 1)
    ∧ Discovery.writers (Discovery.bucket d) d = ["Default"].
Proof.
  intros d. eexists. split; [reflexivity|]. split; [reflexivity|]. split.
  - intros es. apply inFlight_bounded; lia.
  - unfold Discovery.writers. simpl. rewrite andb_false_r. reflexivity.
Qed.

(** C8: the errors alarm of the Discovery construct watches the
    handler's error metric over 15 minutes and fires as soon as one
    period's value is greater than or equal to 1; the no-invocations
    alarm watches the invocation metric over 15 minutes and fires as
    soon as one period's value is less than 1.  An aborted run counts as
    an invocation error, so a period with an aborted run fires the
    errors alarm, and a period of clean runs does not. *)
Theorem alarms_on_errors_and_missing_invocations (props : DiscoveryProps) :
  let d := Discovery.new K props in
  ∃ e n, Discovery.alarm (Discovery.alarmErrors d) d = Some e
    ∧ Discovery.alarm (Discovery.alarmNoInvocations d) d = Some n
    ∧ metricName (metric e) = Some (VString "Errors")
    ∧ period (metric e) = Some (VDuration (Duration.minutes 15))
    ∧ comparisonOperator e = GREATER_THAN_OR_EQUAL_TO_THRESHOLD
    ∧ evaluationPeriods e = 1%nat
    ∧ threshold e = 1
    ∧ (∀ v older, alarmFires e (v :: older) = (1 <=? v))
    ∧ metricName (metric n) = Some (VString "Invocations")
    ∧ period (metric n) = Some (VDuration (Duration.minutes 15))
    ∧ comparisonOperator n = LESS_THAN_THRESHOLD
    ∧ evaluationPeriods n = 1%nat
    ∧ threshold n = 1
    ∧ (∀ v older, alarmFires n (v :: older) = (v <? 1))
    ∧ (∀ runs older, alarmFires e (errorsDatapoint runs :: older)
                     = existsb isInvocationError runs)
    ∧ (∀ runs older, alarmFires n (invocationsDatapoint runs :: older)
                     = match runs with [] => true | _ => false end).
Proof.
  intros d. do 2 eexists.
  split; [reflexivity|]. split; [reflexivity|].
  repeat match goal with |- _ = _ ∧ _ => split; [reflexivity|] end.
  split. { intros v older. unfold alarmFires. simpl. apply andb_true_r. }
  repeat match goal with |- _ = _ ∧ _ => split; [reflexivity|] end.
  split. { intros v older. unfold alarmFires. simpl. apply andb_true_r. }
  split.
  - intros runs older. unfold alarmFires. simpl. rewrite andb_true_r.
    unfold errorsDatapoint.
    induction runs as [|o runs IH]; [reflexivity|].
    simpl. destruct (isInvocationError o); simpl.
    + apply Z.leb_le. lia.
    + exact IH.
  - intros runs older. unfold alarmFires. simpl. rewrite andb_true_r.
    unfold invocationsDatapoint. destruct runs; [reflexivity|].
    apply Z.ltb_ge. simpl length. lia.
Qed.

Lemma period_given (props : JsObject) (d : Duration) :
  props !! "period" = Some (VDuration d) → validPeriod d = true →
  period (mkMetric props) = Some (VDuration d).
Proof.
  intros Hp Hv. unfold period. simpl. rewrite Hp, Hv. reflexivity.
Qed.

Lemma statistic_given (props : JsObject) (st : Statistic) :
  props !! "statistic" = Some (VStatistic st) →
  statistic normalizeStatistic (mkMetric props) = Some (VStatistic st).
Proof.
  intros Hs. unfold statistic. simpl. rewrite Hs. reflexivity.
Qed.

(** C10 (as amended): every metric accessor of Discovery spreads
    [opts] last.  The props it hands to [new Metric] hold each property
    of [opts], and the defaults for the others; so in the metric the
    [metricName] and the [namespace] are those of [opts] when it has
    them, the construct's otherwise, and a valid period or a statistic
    set in [opts] is the metric's.  Every accessor of NpmJsPackageCanary
    that builds its own metric (dwell time, time to catalog, tracked
    version count, estimated replica lag) sets [metricName] and
    [namespace] after spreading [opts]: in the metric these two are the
    construct's own whatever [opts] holds, while the other props follow
    [opts], so that a valid period or a statistic set in [opts] is the
    metric's.  The four remaining accessors of NpmJsPackageCanary
    (errors, invocations, throttles, duration) return what the handler's
    accessor returns for the same [opts]. *)
Theorem metric_options_override_order :
  Forall (λ a : string * (option JsObject → Metric),
      metricName (a.2 None) = Some (VString a.1)
      ∧ namespace (a.2 None) = Some (VString (METRIC_NAMESPACE K))
      ∧ period (a.2 None) = Some (VDuration Discovery.timeout)
      ∧ (∀ (opts : JsObject) k,
           metricProps (a.2 (Some opts)) !! k =
             match opts !! k with
             | Some v => Some v
             | None => metricProps (a.2 None) !! k
             end)
      ∧ (∀ opts : JsObject,
           metricName (a.2 (Some opts)) =
             match opts !! "metricName" with
             | Some v => Some v
             | None => Some (VString a.1)
             end
           ∧ namespace (a.2 (Some opts)) =
               match opts !! "namespace" with
               | Some v => Some v
               | None => Some (VString (METRIC_NAMESPACE K))
               end)
      ∧ (∀ (opts : JsObject) v w,
           metricName (a.2 (Some (<["metricName" := v]> opts))) = Some v
           ∧ namespace (a.2 (Some (<["namespace" := w]> opts))) = Some w)
      ∧ (∀ (opts : JsObject) d, validPeriod d = true →
           period (a.2 (Some (<["period" := VDuration d]> opts))) = Some (VDuration d))
      ∧ (∀ (opts : JsObject) st,
           statistic normalizeStatistic (a.2 (Some (<["statistic" := VStatistic st]> opts)))
             = Some (VStatistic st)))
    (Discovery.metricAccessors K)
  ∧ Forall (λ a : string * (option JsObject → Metric),
      (∀ opts : option JsObject,
           metricName (a.2 opts) = Some (VString a.1)
           ∧ namespace (a.2 opts) = Some (VString (METRICS_NAMESPACE KC)))
      ∧ period (a.2 None) = Some (VDuration (Duration.minutes 1))
      ∧ (∀ (opts : JsObject) k, k ≠ "metricName" → k ≠ "namespace" →
           metricProps (a.2 (Some opts)) !! k =
             match opts !! k with
             | Some v => Some v
             | None => metricProps (a.2 None) !! k
             end)
      ∧ (∀ (opts : JsObject) d, validPeriod d = true →
           period (a.2 (Some (<["period" := VDuration d]> opts))) = Some (VDuration d))
      ∧ (∀ (opts : JsObject) st,
           statistic normalizeStatistic (a.2 (Some (<["statistic" := VStatistic st]> opts)))
             = Some (VStatistic st)))
    (NpmJsPackageCanary.metricAccessors KC)
  ∧ Forall (λ a : (option JsObject → Metric) * (option JsObject → Metric),
      ∀ opts : option JsObject, a.1 opts = a.2 opts)
    NpmJsPackageCanary.handlerMetricAccessors.
Proof.
  split; [|split].
  - unfold Discovery.metricAccessors.
    repeat first [apply List.Forall_nil | apply List.Forall_cons].
    all: simpl; unfold Discovery.metricBatchProcessingTime, Discovery.metricChangeCount,
           Discovery.metricPackageVersionAge, Discovery.metricPackageVersionCount,
           Discovery.metricRelevantPackageVersions, Discovery.metricRemainingTime,
           Discovery.metricStagingFailureCount, Discovery.metricStagingTime,
           Discovery.metricUnprocessableEntity, objectLiteral; simpl.
    all: split; [reflexivity|]; split; [reflexivity|]; split; [reflexivity|].
    all: split; [intros opts k; apply lookup_spread|].
    all: split; [intros opts; unfold metricName, namespace; simpl;
                 rewrite !lookup_spread;
                 destruct (opts !! "metricName"), (opts !! "namespace");
                 split; reflexivity|].
    all: split; [intros opts v w; unfold metricName, namespace; simpl;
                 rewrite !lookup_spread, !lookup_insert_eq; split; reflexivity|].
    all: split; [intros opts d Hd; apply period_given; [|exact Hd];
                 rewrite lookup_spread, lookup_insert_eq; reflexivity|].
    all: intros opts st; apply statistic_given;
         rewrite lookup_spread, lookup_insert_eq; reflexivity.
  - unfold NpmJsPackageCanary.metricAccessors.
    repeat first [apply List.Forall_nil | apply List.Forall_cons].
    all: simpl; unfold NpmJsPackageCanary.metricDwellTime,
           NpmJsPackageCanary.metricTimeToCatalog,
           NpmJsPackageCanary.metricTrackedVersionCount,
           NpmJsPackageCanary.metricEstimatedNpmReplicaLag, objectLiteral; simpl.
    all: split; [intros opts; unfold metricName, namespace; simpl; split;
                 [ rewrite lookup_insert_ne by discriminate; apply lookup_insert_eq
                 | apply lookup_insert_eq ]|].
    all: split; [reflexivity|].
    all: split; [intros opts k Hm Hn; rewrite !lookup_insert_ne by congruence;
                 apply lookup_spread|].
    all: split; [intros opts d Hd; apply period_given; [|exact Hd];
                 rewrite !lookup_insert_ne by discriminate;
                 rewrite lookup_spread, lookup_insert_eq; reflexivity|].
    all: intros opts st; apply statistic_given;
         rewrite !lookup_insert_ne by discriminate;
         rewrite lookup_spread, lookup_insert_eq; reflexivity.
  - unfold NpmJsPackageCanary.handlerMetricAccessors.
    repeat first [apply List.Forall_nil | apply List.Forall_cons].
    all: intros opts; reflexivity.
Qed.

End ConstructProperties.

(* ===================================================================== *)
(** ** Properties of the Scanner                                         *)
(* ===================================================================== *)

Section ScannerProperties.
Import Scanner.
Variable cfg : Config.

(** *** Staging and notification passes *)

Lemma stageAll_attempted (w : World) (cs : list ChangeRecord) (objs : gmap string string) :
  attempted (stageAll cfg w cs objs).2 = cs.
Proof.
  revert objs. induction cs as [|c cs IH]; intros objs; simpl; [reflexivity|].
  destruct (stage cfg w c objs) as [[e|a] objs1];
    specialize (IH objs1);
    destruct (stageAll cfg w cs objs1) as [[[staged failures] objs2] ev];
    simpl in *; unfold attempted in *; simpl; rewrite IH; reflexivity.
Qed.

Lemma stageAll_staged_subset (w : World) (cs : list ChangeRecord) (objs : gmap string string) :
  ∀ s, s ∈ (stageAll cfg w cs objs).1.1.1 → s.1 ∈ cs.
Proof.
  revert objs. induction cs as [|c cs IH]; intros objs s; simpl.
  - intros H. inversion H.
  - destruct (stage cfg w c objs) as [[e|a] objs1];
      specialize (IH objs1 s);
      destruct (stageAll cfg w cs objs1) as [[[staged failures] objs2] ev];
      simpl in *.
    + intros H. right. auto.
    + intros H. apply elem_of_cons in H as [->|H]; [left|right; auto].
Qed.

Lemma stageAll_events (w : World) (cs : list ChangeRecord) (objs : gmap string string) :
  ∀ e, e ∈ (stageAll cfg w cs objs).2 → ∃ r ok, e = StageAttempt r ok ∧ r ∈ cs.
Proof.
  revert objs. induction cs as [|c cs IH]; intros objs e; simpl.
  - intros H. inversion H.
  - destruct (stage cfg w c objs) as [[err|a] objs1];
      specialize (IH objs1 e);
      destruct (stageAll cfg w cs objs1) as [[[staged failures] objs2] ev];
      simpl in *; intros H; apply elem_of_cons in H as [->|H].
    + exists c, false. split; [reflexivity|left].
    + destruct (IH H) as (r & ok & -> & Hr). exists r, ok. split; [reflexivity|right; exact Hr].
    + exists c, true. split; [reflexivity|left].
    + destruct (IH H) as (r & ok & -> & Hr). exists r, ok. split; [reflexivity|right; exact Hr].
Qed.

Lemma notifyAll_events (w : World) (staged : list (ChangeRecord * StagedArtifact))
    (q : list Notification) :
  ∀ e, e ∈ (notifyAll w staged q).2 → ∃ s ok, e = Notified s.1 ok ∧ s ∈ staged.
Proof.
  revert q. induction staged as [|s staged IH]; intros q e; simpl.
  - intros H. inversion H.
  - destruct (queueAccepts w (notificationOf s)).
    + specialize (IH (q ++ [notificationOf s]) e).
      destruct (notifyAll w staged (q ++ [notificationOf s])) as [[ok q'] ev].
      simpl in *. intros H. apply elem_of_cons in H as [->|H].
      * exists s, true. split; [reflexivity|left].
      * destruct (IH H) as (s' & ok' & -> & Hs). exists s', ok'. split; [reflexivity|right; exact Hs].
    + simpl. intros H. apply list_elem_of_singleton in H as ->.
      exists s, false. split; [reflexivity|left].
Qed.

Lemma notifyAll_attempted (w : World) (staged : list (ChangeRecord * StagedArtifact))
    (q : list Notification) :
  attempted (notifyAll w staged q).2 = [].
Proof.
  revert q. induction staged as [|s staged IH]; intros q; simpl; [reflexivity|].
  destruct (queueAccepts w (notificationOf s)); [|reflexivity].
  specialize (IH (q ++ [notificationOf s])).
  destruct (notifyAll w staged (q ++ [notificationOf s])) as [[ok q'] ev].
  exact IH.
Qed.

Lemma notifyAll_rejected (w : World) (staged : list (ChangeRecord * StagedArtifact))
    (q : list Notification) :
  (notifyAll w staged q).1.1 = false →
  ∃ s, s ∈ staged ∧ queueAccepts w (notificationOf s) = false
       ∧ Notified s.1 false ∈ (notifyAll w staged q).2.
Proof.
  revert q. induction staged as [|s staged IH]; intros q; simpl; [discriminate|].
  destruct (queueAccepts w (notificationOf s)) eqn:Hq.
  - specialize (IH (q ++ [notificationOf s])).
    destruct (notifyAll w staged (q ++ [notificationOf s])) as [[ok q'] ev].
    simpl in *. intros H. destruct (IH H) as (s' & Hs & Hrej & Hev).
    exists s'. split; [right; exact Hs|]. split; [exact Hrej|right; exact Hev].
  - simpl. intros _. exists s. split; [left|]. split; [exact Hq|left].
Qed.

Lemma notifyAll_accepted (w : World) (staged : list (ChangeRecord * StagedArtifact))
    (q : list Notification) :
  (∀ s, s ∈ staged → queueAccepts w (notificationOf s) = true) →
  (notifyAll w staged q).1.1 = true.
Proof.
  revert q. induction staged as [|s staged IH]; intros q Hall; simpl; [reflexivity|].
  rewrite (Hall s) by left.
  specialize (IH (q ++ [notificationOf s])).
  destruct (notifyAll w staged (q ++ [notificationOf s])) as [[ok q'] ev].
  simpl in *. apply IH. intros s' Hs'. apply Hall. right. exact Hs'.
Qed.

Lemma attempted_app (a b : list Event) : attempted (a ++ b) = attempted a ++ attempted b.
Proof. unfold attempted. apply omap_app. Qed.

Lemma attempted_unprocessable (rs : list ChangeRecord) : attempted (Unprocessable <$> rs) = [].
Proof. induction rs as [|r rs IH]; [reflexivity|exact IH]. Qed.

Lemma stagingAttempts_attempted (tr : list Event) :
  stagingAttempts tr = length (attempted tr).
Proof.
  unfold stagingAttempts, attempted.
  induction tr as [|e tr IH]; [reflexivity|].
  destruct e; simpl; auto.
Qed.

(** C6: processing a batch attempts to stage each of its candidate
    records exactly once (N attempts for N candidates) and adds the
    number of its malformed records (M) to the unprocessable-entity
    counter, whatever staging and delivery do; neither a malformed
    record nor a staging failure aborts the batch: it is cut short only
    by a rejected notification, and goes through when the queue accepts
    every message. *)
Theorem malformed_records_are_isolated (w : World) (batch : list ChangeRecord)
    (sv : Services) (mt : Metrics) :
  let res := processBatch cfg w batch sv mt in
  attempted res.2 = List.filter (isCandidate cfg) batch
  ∧ stagingAttempts res.2 = length (List.filter (isCandidate cfg) batch)
  ∧ unprocessableEntity res.1.2
      = unprocessableEntity mt + Z.of_nat (length (List.filter (isMalformed cfg) batch))
  ∧ (res.1.1.1 = false → ∃ r, r ∈ batch ∧ Notified r false ∈ res.2)
  ∧ ((∀ n, queueAccepts w n = true) → res.1.1.1 = true).
Proof.
  intros res. subst res. unfold processBatch.
  pose proof (stageAll_attempted w (List.filter (isCandidate cfg) batch) (objects sv)) as Hatt.
  pose proof (stageAll_staged_subset w (List.filter (isCandidate cfg) batch) (objects sv)) as Hsub.
  destruct (stageAll cfg w (List.filter (isCandidate cfg) batch) (objects sv))
    as [[[staged failures] objs] evStage].
  pose proof (notifyAll_attempted w staged (notifications sv)) as Hnat.
  pose proof (notifyAll_rejected w staged (notifications sv)) as Hrej.
  pose proof (notifyAll_accepted w staged (notifications sv)) as Hacc.
  destruct (notifyAll w staged (notifications sv)) as [[ok q] evNotify].
  simpl in *.
  assert (Hev : attempted ((Unprocessable <$> List.filter (isMalformed cfg) batch)
                           ++ evStage ++ evNotify)
                = List.filter (isCandidate cfg) batch).
  { rewrite !attempted_app, attempted_unprocessable, Hatt, Hnat. simpl.
    apply app_nil_r. }
  split; [exact Hev|]. split; [rewrite stagingAttempts_attempted, Hev; reflexivity|].
  split; [reflexivity|]. split.
  - intros Hok. destruct (Hrej Hok) as (s & Hs & _ & Hn).
    exists s.1. split.
    + apply Hsub in Hs. apply list_elem_of_In, filter_In in Hs as [Hs _].
      apply list_elem_of_In. exact Hs.
    + apply elem_of_app. right. apply elem_of_app. right. exact Hn.
  - intros Hall. apply Hacc. intros s _. apply Hall.
Qed.

(** C7: the storage key of a version depends on its package name and
    version only, so staging the same version again writes to the same
    key.  After a staging that succeeded, staging the same record again
    succeeds with the same artifact and leaves the bucket as it is; and
    whether a staging fails never depends on what the bucket already
    holds. *)
Theorem staging_is_idempotent (w : World) (c1 c2 : ChangeRecord)
    (objs : gmap string string) (a1 : StagedArtifact) (objs1 : gmap string string) :
  name c1 = name c2 → version c1 = version c2 →
  stage cfg w c1 objs = (inr a1, objs1) →
  stagedKey cfg c1 = stagedKey cfg c2
  ∧ key a1 = stagedKey cfg c1
  ∧ stage cfg w c1 objs1 = (inr a1, objs1)
  ∧ (∀ objs', match (stage cfg w c2 objs').1, (stage cfg w c2 ∅).1 with
              | inr a, inr a' => a = a'
              | inl e, inl e' => e = e'
              | _, _ => False
              end)
  ∧ (∀ a2 objs2, stage cfg w c2 objs1 = (inr a2, objs2) →
       key a2 = key a1 ∧ dom objs2 = dom objs1 ∧ objs2 !! key a1 = fetch w c2).
Proof.
  intros Hname Hversion Hstage.
  assert (Hkey : stagedKey cfg c1 = stagedKey cfg c2).
  { unfold stagedKey. rewrite Hname, Hversion. reflexivity. }
  unfold stage in Hstage.
  destruct (fetch w c1) as [t1|] eqn:Hf1; [|discriminate].
  destruct (checksumOk w c1 t1) eqn:Hc1; [|discriminate].
  destruct (storageWriteOk w (stagedKey cfg c1)) eqn:Hw1; [|discriminate].
  injection Hstage as <- <-. simpl.
  split; [exact Hkey|]. split; [reflexivity|]. split; [|split].
  - unfold stage. rewrite Hf1, Hc1, Hw1, insert_insert_eq. reflexivity.
  - intros objs'. unfold stage.
    destruct (fetch w c2) as [t2|]; [|reflexivity].
    destruct (checksumOk w c2 t2); [|reflexivity].
    destruct (storageWriteOk w (stagedKey cfg c2)); reflexivity.
  - intros a2 objs2. unfold stage.
    destruct (fetch w c2) as [t2|]; [|discriminate].
    destruct (checksumOk w c2 t2); [|discriminate].
    destruct (storageWriteOk w (stagedKey cfg c2)); [|discriminate].
    intros H. injection H as <- <-. simpl. rewrite <- Hkey.
    split; [reflexivity|]. split.
    + rewrite insert_insert_eq, !dom_insert_L. reflexivity.
    + rewrite lookup_insert_eq. reflexivity.
Qed.

(** *** The loop *)

Lemma highest_ge_head (r : ChangeRecord) (rs : list ChangeRecord) :
  sequenceId r ≤ highest r rs.
Proof.
  unfold highest. induction rs as [|x rs IH]; cbn in *; lia.
Qed.

Lemma read_behind (w : World) (mk : option Z) (x : ChangeRecord) :
  x ∈ read cfg w mk → behind mk x = true ∧ x ∈ feed w.
Proof.
  unfold read. intros Hx.
  assert (Hin : In x (List.filter (behind mk) (feed w))).
  { rewrite <- (firstn_skipn (maxBatch cfg) (List.filter (behind mk) (feed w))).
    apply in_or_app. left. apply list_elem_of_In. exact Hx. }
  apply filter_In in Hin as [Hfeed Hb].
  split; [exact Hb|apply list_elem_of_In; exact Hfeed].
Qed.

Lemma read_head (w : World) (mk : option Z) (r : ChangeRecord) (rs : list ChangeRecord) :
  read cfg w mk = r :: rs → beyond mk (sequenceId r) ∧ r ∈ feed w.
Proof.
  intros Hr. destruct (read_behind w mk r) as [Hb Hf]; [rewrite Hr; left|].
  split; [|exact Hf].
  destruct mk as [p|]; simpl in *; [apply Z.ltb_lt; exact Hb|exact I].
Qed.

Lemma processBatch_checkpoint (w : World) (batch : list ChangeRecord)
    (sv : Services) (mt : Metrics) :
  checkpoint (processBatch cfg w batch sv mt).1.1.2 = checkpoint sv.
Proof.
  unfold processBatch.
  destruct (stageAll cfg w (List.filter (isCandidate cfg) batch) (objects sv))
    as [[[staged failures] objs] evStage].
  destruct (notifyAll w staged (notifications sv)) as [[ok q] evNotify].
  reflexivity.
Qed.

Lemma processBatch_events (w : World) (batch : list ChangeRecord)
    (sv : Services) (mt : Metrics) :
  ∀ e, e ∈ (processBatch cfg w batch sv mt).2 → ∃ r, r ∈ batch ∧ touches e r.
Proof.
  unfold processBatch.
  pose proof (stageAll_events w (List.filter (isCandidate cfg) batch) (objects sv)) as Hst.
  pose proof (stageAll_staged_subset w (List.filter (isCandidate cfg) batch) (objects sv)) as Hsub.
  destruct (stageAll cfg w (List.filter (isCandidate cfg) batch) (objects sv))
    as [[[staged failures] objs] evStage].
  pose proof (notifyAll_events w staged (notifications sv)) as Hnt.
  destruct (notifyAll w staged (notifications sv)) as [[ok q] evNotify].
  simpl in *. intros e He.
  assert (Hfilter : ∀ f (x : ChangeRecord), x ∈ List.filter f batch → x ∈ batch).
  { intros f x Hx. apply list_elem_of_In, filter_In in Hx as [Hx _].
    apply list_elem_of_In. exact Hx. }
  apply elem_of_app in He as [He|He]; [|apply elem_of_app in He as [He|He]].
  - apply list_elem_of_fmap in He as (r & -> & Hr).
    exists r. split; [eapply Hfilter; exact Hr|left; reflexivity].
  - destruct (Hst e He) as (r & b & -> & Hr).
    exists r. split; [eapply Hfilter; exact Hr|right; exists b; left; reflexivity].
  - destruct (Hnt e He) as (s & b & -> & Hs).
    exists s.1. split; [eapply Hfilter, Hsub; exact Hs|right; exists b; right; reflexivity].
Qed.

Lemma respects_batch (m : option Z) (ev : list Event) :
  (∀ e, e ∈ ev → ∃ r, beyond m (sequenceId r) ∧ touches e r) →
  respects m ev ∧ persistedAfter m ev = m.
Proof.
  induction ev as [|e ev IH]; intros Hall; [split; [exact I|reflexivity]|].
  destruct IH as [IH1 IH2]; [intros e' He'; apply Hall; right; exact He'|].
  destruct (Hall e) as (r & Hr & [->|[ok [->| ->]]]); [left|..]; simpl; auto.
Qed.

Lemma respects_app (m : option Z) (a b : list Event) :
  respects m (a ++ b) ↔ respects m a ∧ respects (persistedAfter m a) b.
Proof.
  revert m. induction a as [|e a IH]; intros m; simpl; [tauto|].
  destruct e; simpl; rewrite ?IH; tauto.
Qed.

Lemma persistedAfter_app (m : option Z) (a b : list Event) :
  persistedAfter m (a ++ b) = persistedAfter (persistedAfter m a) b.
Proof.
  revert m. induction a as [|e a IH]; intros m; simpl; [reflexivity|].
  destruct e; simpl; apply IH.
Qed.

Lemma loop_respects (w : World) (fuel tick : nat) (mk : option Z) (sv : Services)
    (mt : Metrics) :
  checkpoint sv = mk →
  let res := loop cfg w fuel tick mk sv mt in
  respects mk (trace res) ∧ persistedAfter mk (trace res) = checkpoint (services res).
Proof.
  revert tick mk sv mt.
  induction fuel as [|fuel IH]; intros tick mk sv mt Hck; simpl; [auto|].
  destruct (shouldStop (governor cfg w) (clock w tick)).
  { destruct mk as [m|]; simpl; [|auto].
    unfold save. destruct (checkpointSaveOk w m); simpl; [|auto].
    split; [split; [lia|exact I]|reflexivity]. }
  destruct (feedFatal w mk); [simpl; auto|].
  destruct (read cfg w mk) as [|r rs] eqn:Hread; [simpl; auto|].
  pose proof (processBatch_events w (r :: rs) sv mt) as Hev.
  pose proof (processBatch_checkpoint w (r :: rs) sv mt) as Hck1.
  destruct (processBatch cfg w (r :: rs) sv mt) as [[[ok sv1] mt1] ev].
  simpl in Hev, Hck1.
  assert (Hquiet : respects mk ev ∧ persistedAfter mk ev = mk).
  { apply respects_batch. intros e He. destruct (Hev e He) as (x & Hx & Ht).
    exists x. split; [|exact Ht].
    destruct (read_behind w mk x) as [Hb _]; [rewrite Hread; exact Hx|].
    destruct mk as [p|]; simpl in *; [apply Z.ltb_lt; exact Hb|exact I]. }
  destruct Hquiet as [Hresp Hpers].
  destruct ok; [|simpl; split; [exact Hresp|congruence]].
  unfold save. destruct (checkpointSaveOk w (highest r rs));
    [|simpl; split; [exact Hresp|congruence]].
  specialize (IH (S tick) (Some (highest r rs))
                (mkServices (Some (highest r rs)) (objects sv1) (notifications sv1))
                mt1 eq_refl).
  simpl in IH. destruct IH as [IH1 IH2]. simpl.
  rewrite respects_app, persistedAfter_app, Hpers. simpl.
  split; [|exact IH2]. split; [exact Hresp|]. split; [|exact IH1].
  destruct (read_head w mk r rs Hread) as [Hb _].
  pose proof (highest_ge_head r rs).
  destruct mk as [p|]; simpl in *; [lia|exact I].
Qed.

Lemma run_respects (w : World) (sv : Services) :
  respects (checkpoint sv) (trace (run cfg w sv))
  ∧ persistedAfter (checkpoint sv) (trace (run cfg w sv))
    = checkpoint (services (run cfg w sv)).
Proof.
  unfold run. cbn [trace services respects persistedAfter].
  apply loop_respects. reflexivity.
Qed.

Lemma runs_respects (ws : list World) (sv : Services) :
  respects (checkpoint sv) (runs cfg ws sv).2
  ∧ persistedAfter (checkpoint sv) (runs cfg ws sv).2 = checkpoint (runs cfg ws sv).1.
Proof.
  revert sv. induction ws as [|w ws IH]; intros sv; [simpl; auto|].
  cbn [runs]. generalize (run_respects w sv).
  generalize (run cfg w sv). intros res [Hr Hp].
  specialize (IH (services res)).
  destruct (runs cfg ws (services res)) as [sv' ev].
  cbn [fst snd] in *. rewrite respects_app, persistedAfter_app, Hp.
  destruct IH as [IH1 IH2]. auto.
Qed.

(** What a respected marker entails. *)
Lemma respects_processes (m : option Z) (tr : list Event) (r : ChangeRecord) :
  respects m tr → processes r tr → beyond m (sequenceId r).
Proof.
  revert m. induction tr as [|e tr IH]; intros m Hresp [ok Hp].
  - destruct Hp as [Hp|Hp]; inversion Hp.
  - assert (Hcases : (e = StageAttempt r ok ∨ e = Notified r ok) ∨ processes r tr).
    { destruct Hp as [Hp|Hp]; apply elem_of_cons in Hp as [Hp|Hp]; subst; auto;
        right; exists ok; auto. }
    destruct Hcases as [[-> | ->]|Htail]; [simpl in Hresp; tauto..|].
    destruct e; simpl in Hresp; try (apply IH; tauto).
    destruct Hresp as [Hle Hresp]. specialize (IH _ Hresp Htail). simpl in IH.
    destruct m as [p|]; simpl in *; [lia|exact I].
Qed.

Lemma respects_saved (m : option Z) (tr : list Event) (m' : Z) :
  respects m tr → Saved m' ∈ tr → notBelow m m'.
Proof.
  revert m. induction tr as [|e tr IH]; intros m Hresp Hin; [inversion Hin|].
  apply elem_of_cons in Hin as [<-|Hin]; [simpl in Hresp; tauto|].
  destruct e; simpl in Hresp; try (apply IH; tauto).
  destruct Hresp as [Hle Hresp]. specialize (IH _ Hresp Hin).
  destruct m as [p|]; simpl in *; [lia|exact I].
Qed.

Lemma respects_split (m : option Z) (pre post : list Event) (m' : Z) :
  respects m (pre ++ Saved m' :: post) → respects (Some m') post.
Proof.
  rewrite respects_app. simpl. tauto.
Qed.

(** C1: over every sequence of runs, each marker saved is at or above
    the marker persisted before the runs and at or below every marker
    saved after it, the Checkpoint Store ends up holding the last one
    saved, and no record at or below a persisted marker is staged or
    notified afterwards, in the same run or in any later one. *)
Theorem checkpoint_monotone_no_reprocessing (ws : list World) (sv : Services) :
  let tr := (runs cfg ws sv).2 in
  persistedAfter (checkpoint sv) tr = checkpoint (runs cfg ws sv).1
  ∧ (∀ r, processes r tr → beyond (checkpoint sv) (sequenceId r))
  ∧ (∀ pre m post, tr = pre ++ Saved m :: post →
       notBelow (checkpoint sv) m
       ∧ (∀ m', Saved m' ∈ post → m ≤ m')
       ∧ (∀ r, processes r post → m < sequenceId r)).
Proof.
  intros tr. subst tr. destruct (runs_respects ws sv) as [Hresp Hpers].
  split; [exact Hpers|]. split.
  - intros r Hr. eapply respects_processes; eauto.
  - intros pre m post Heq. rewrite Heq in Hresp.
    pose proof (respects_split _ _ _ _ Hresp) as Hpost.
    split; [|split].
    + eapply respects_saved; [exact Hresp|].
      apply elem_of_app. right. left.
    + intros m' Hm'. exact (respects_saved _ _ _ Hpost Hm').
    + intros r Hr. exact (respects_processes _ _ _ Hpost Hr).
Qed.

(** *** Budget *)

Lemma filter_shrinks (P Q : ChangeRecord → bool) (l : list ChangeRecord) (x : ChangeRecord) :
  (∀ y, Q y = true → P y = true) → x ∈ l → P x = true → Q x = false →
  (length (List.filter Q l) < length (List.filter P l))%nat.
Proof.
  intros Himp Hin HP HQ.
  assert (Hle : ∀ l', (length (List.filter Q l') ≤ length (List.filter P l'))%nat).
  { induction l' as [|y l' IH]; simpl; [lia|].
    destruct (Q y) eqn:Hq; [rewrite (Himp y Hq); simpl; lia|].
    destruct (P y); simpl; lia. }
  induction l as [|y l IH]; [inversion Hin|].
  apply elem_of_cons in Hin as [<-|Hin]; simpl.
  - rewrite HP, HQ. simpl. specialize (Hle l). lia.
  - specialize (IH Hin). destruct (Q y) eqn:Hq; [rewrite (Himp y Hq); simpl; lia|].
    destruct (P y); simpl; lia.
Qed.

Lemma loop_ends (w : World) (fuel tick : nat) (mk : option Z) (sv : Services)
    (mt : Metrics) :
  (length (List.filter (behind mk) (feed w)) < fuel)%nat →
  outcome (loop cfg w fuel tick mk sv mt) ≠ OutOfFuel.
Proof.
  revert tick mk sv mt.
  induction fuel as [|fuel IH]; intros tick mk sv mt Hlen; [lia|]. simpl.
  destruct (shouldStop (governor cfg w) (clock w tick)).
  { destruct mk as [m|]; [destruct (save w m sv)|]; discriminate. }
  destruct (feedFatal w mk); [discriminate|].
  destruct (read cfg w mk) as [|r rs] eqn:Hread; [discriminate|].
  destruct (processBatch cfg w (r :: rs) sv mt) as [[[ok sv1] mt1] ev].
  destruct ok; [|discriminate].
  destruct (save w (highest r rs) sv1) as [sv2|]; [|discriminate].
  simpl. apply IH.
  destruct (read_head w mk r rs Hread) as [Hb Hfeed].
  pose proof (highest_ge_head r rs) as Hh.
  assert (length (List.filter (behind (Some (highest r rs))) (feed w))
          < length (List.filter (behind mk) (feed w)))%nat; [|lia].
  apply (filter_shrinks _ _ _ r); [|exact Hfeed|..].
  - intros y Hy. simpl in Hy. apply Z.ltb_lt in Hy.
    destruct mk as [p|]; simpl in *; [apply Z.ltb_lt; lia|reflexivity].
  - destruct mk as [p|]; simpl in *; [apply Z.ltb_lt; exact Hb|reflexivity].
  - simpl. apply Z.ltb_ge. exact Hh.
Qed.

Lemma loop_fetches (w : World) (fuel tick : nat) (mk : option Z) (sv : Services)
    (mt : Metrics) (pos : option Z) (n : nat) :
  Fetched pos n ∈ trace (loop cfg w fuel tick mk sv mt) →
  shouldStop (governor cfg w) (clock w n) = false.
Proof.
  revert tick mk sv mt.
  induction fuel as [|fuel IH]; intros tick mk sv mt; simpl; [intros H; inversion H|].
  destruct (shouldStop (governor cfg w) (clock w tick)) eqn:Hstop.
  { destruct mk as [m|]; [destruct (save w m sv)|]; simpl; intros H.
    - apply list_elem_of_singleton in H. discriminate.
    - inversion H.
    - inversion H. }
  assert (Hhere : ∀ p, Fetched pos n = Fetched p tick →
                       shouldStop (governor cfg w) (clock w n) = false).
  { intros p Heq. injection Heq as _ ->. exact Hstop. }
  destruct (feedFatal w mk).
  { simpl. intros H. apply list_elem_of_singleton in H. eapply Hhere, H. }
  destruct (read cfg w mk) as [|r rs] eqn:Hread.
  { simpl. intros H. apply list_elem_of_singleton in H. eapply Hhere, H. }
  pose proof (processBatch_events w (r :: rs) sv mt) as Hev.
  destruct (processBatch cfg w (r :: rs) sv mt) as [[[ok sv1] mt1] ev].
  simpl in Hev.
  assert (Hbatch : Fetched pos n ∈ ev → False).
  { intros H. destruct (Hev _ H) as (x & _ & [Hx|[b [Hx|Hx]]]); discriminate. }
  destruct ok; [destruct (save w (highest r rs) sv1) as [sv2|]|]; simpl; intros H;
    apply elem_of_cons in H as [H|H]; try (eapply Hhere, H); try (destruct (Hbatch H)).
  apply elem_of_app in H as [H|H]; [destruct (Hbatch H)|].
  apply elem_of_cons in H as [H|H]; [discriminate|].
  eapply IH, H.
Qed.

Lemma markerOf_cons (mk : option Z) (r : ChangeRecord) (rs : list ChangeRecord)
    (batches : list (list ChangeRecord)) :
  Forall (λ b, b ≠ []) batches →
  markerOf mk ((r :: rs) :: batches) = markerOf (Some (highest r rs)) batches.
Proof.
  intros Hne. unfold markerOf.
  destruct batches as [|b batches]; [reflexivity|].
  rewrite last_cons_cons.
  destruct (last (b :: batches)) as [[|x xs]|] eqn:Hlast.
  - exfalso.
    apply (proj1 (Forall_forall _ _) Hne [] (last_Some_elem_of _ _ Hlast)).
    reflexivity.
  - reflexivity.
  - apply last_None in Hlast. discriminate.
Qed.

Lemma loop_persists (w : World) (fuel tick : nat) (mk : option Z) (sv : Services)
    (mt : Metrics) :
  checkpoint sv = mk →
  let res := loop cfg w fuel tick mk sv mt in
  Forall (λ b, b ≠ []) (processed res)
  ∧ (outcome res = Stopped ∨ outcome res = Exhausted →
     checkpoint (services res) = marker res
     ∧ marker res = markerOf mk (processed res)).
Proof.
  revert tick mk sv mt.
  induction fuel as [|fuel IH]; intros tick mk sv mt Hck; simpl.
  { split; [constructor|]. intros [H|H]; discriminate. }
  destruct (shouldStop (governor cfg w) (clock w tick)).
  { destruct mk as [m|]; simpl.
    - unfold save. destruct (checkpointSaveOk w m); simpl.
      + split; [constructor|]. intros _. split; reflexivity.
      + split; [constructor|]. intros [H|H]; discriminate.
    - split; [constructor|]. intros _. split; [exact Hck|reflexivity]. }
  destruct (feedFatal w mk).
  { simpl. split; [constructor|]. intros [H|H]; discriminate. }
  destruct (read cfg w mk) as [|r rs] eqn:Hread.
  { simpl. split; [constructor|]. intros _. split; [exact Hck|reflexivity]. }
  destruct (processBatch cfg w (r :: rs) sv mt) as [[[ok sv1] mt1] ev].
  destruct ok; [|simpl; split; [constructor|]; intros [H|H]; discriminate].
  unfold save. destruct (checkpointSaveOk w (highest r rs)).
  - specialize (IH (S tick) (Some (highest r rs))
                  (mkServices (Some (highest r rs)) (objects sv1) (notifications sv1))
                  mt1 eq_refl).
    simpl in IH. destruct IH as [IHne IH]. simpl.
    split; [constructor; [discriminate|exact IHne]|].
    intros Hout. destruct (IH Hout) as [IH1 IH2].
    split; [exact IH1|]. rewrite markerOf_cons by exact IHne. exact IH2.
  - simpl. split; [constructor; [discriminate|constructor]|].
    intros [H|H]; discriminate.
Qed.

(** C2: a run ends by itself; it initiates a batch fetch only at a
    consultation where the governor's remaining time is at least the
    safety margin; and when it returns (stopped by the governor or feed
    exhausted) the Checkpoint Store holds the marker of the last batch
    that went through (the marker it started from when none did).  The
    default margin is 2 minutes, below the Discovery timeout of 15
    minutes: with them no fetch starts later than 13 minutes into the
    run. *)
Theorem budget_respected (w : World) (sv : Services) :
  let res := run cfg w sv in
  outcome res ≠ OutOfFuel
  ∧ (∀ pos n, Fetched pos n ∈ trace res →
       safetyMargin cfg ≤ remaining (governor cfg w) (clock w n))
  ∧ (outcome res = Stopped ∨ outcome res = Exhausted →
       checkpoint (services res) = markerOf (checkpoint sv) (processed res))
  ∧ Duration.toMinutes defaultSafetyMargin = 2
  ∧ Duration.toMilliseconds defaultSafetyMargin
      < Duration.toMilliseconds Discovery.timeout
  ∧ (∀ start,
       deadline w = start + Duration.toMilliseconds Discovery.timeout →
       safetyMargin cfg = Duration.toMilliseconds defaultSafetyMargin →
       ∀ pos n, Fetched pos n ∈ trace res →
         clock w n - start ≤ Duration.toMilliseconds (Duration.minutes 13)).
Proof.
  intros res. subst res. unfold run. cbn [outcome trace services processed].
  assert (Hfetch : ∀ pos n,
    Fetched pos n ∈ Loaded (checkpoint sv)
      :: trace (loop cfg w (S (length (feed w))) 0 (checkpoint sv) sv noMetrics) →
    safetyMargin cfg ≤ remaining (governor cfg w) (clock w n)).
  { intros pos n H. apply elem_of_cons in H as [H|H]; [discriminate|].
    apply loop_fetches in H. unfold shouldStop in H.
    apply Z.ltb_ge in H. exact H. }
  split; [|split; [exact Hfetch|split; [|split; [reflexivity|split; [reflexivity|]]]]].
  - apply loop_ends.
    assert (Hle : ∀ (f : ChangeRecord → bool) l, (length (List.filter f l) ≤ length l)%nat).
    { intros f l. induction l as [|x l IH]; simpl; [lia|]. destruct (f x); simpl; lia. }
    specialize (Hle (behind (checkpoint sv)) (feed w)). lia.
  - intros Hout.
    destruct (loop_persists w (S (length (feed w))) 0 (checkpoint sv) sv noMetrics eq_refl)
      as [_ Hp].
    destruct (Hp Hout) as [H1 H2]. rewrite H1. exact H2.
  - intros start Hdl Hmargin pos n H. specialize (Hfetch pos n H).
    unfold remaining, governor in Hfetch. simpl in Hfetch.
    rewrite Hdl, Hmargin in Hfetch.
    change (Duration.toMilliseconds Discovery.timeout) with 900000 in Hfetch.
    change (Duration.toMilliseconds defaultSafetyMargin) with 120000 in Hfetch.
    change (Duration.toMilliseconds (Duration.minutes 13)) with 780000.
    lia.
Qed.

End ScannerProperties.

(* ===================================================================== *)
(** ** The statements at work on the sample instances                    *)
(* ===================================================================== *)

(** The scenario of §8: from marker 100 the run stages 101, 102 and 105,
    notifies for them, counts 103 as unprocessable and 104 as a staging
    failure, and advances the marker to 105. *)
Example scenario_marker_100 :
  let res := Scanner.run sampleConfig sampleWorld sampleServices in
  Scanner.outcome res = Scanner.Exhausted
  ∧ Scanner.checkpoint (Scanner.services res) = Some 105
  ∧ Scanner.packageVersion <$> Scanner.notifications (Scanner.services res)
      = ["1.0.0"; "1.0.0"; "1.0.0"]
  ∧ Scanner.package <$> Scanner.notifications (Scanner.services res)
      = ["pkg-a"; "pkg-b"; "pkg-e"]
  ∧ Scanner.unprocessableEntity (Scanner.metrics res) = 1
  ∧ Scanner.stagingFailureCount (Scanner.metrics res) = 1.
Proof. vm_compute. repeat split; reflexivity. Qed.

(** Two runs in a row: the first saves 105, and the record the second one
    stages lies beyond it. *)
Lemma checkpoint_monotone_no_reprocessing_witness :
  105 < Scanner.sequenceId (sampleRecord 106 "f").
Proof.
  pose (tr := (Scanner.runs sampleConfig [sampleWorld; sampleLaterWorld] sampleServices).2).
  destruct (checkpoint_monotone_no_reprocessing sampleConfig
              [sampleWorld; sampleLaterWorld] sampleServices) as (_ & _ & H).
  destruct (H (take 10 tr) 105 (drop 11 tr)) as (_ & _ & Hp).
  - vm_compute. reflexivity.
  - apply Hp. exists true. left. vm_compute. repeat constructor.
Defined.

(** A run the governor stops: the store holds the marker of the batch
    that went through, and the fetch started within 13 minutes. *)
Lemma budget_respected_witness :
  Scanner.checkpoint
    (Scanner.services (Scanner.run sampleConfig sampleLaterWorld sampleServices))
  = Scanner.markerOf (Some 100)
      (Scanner.processed (Scanner.run sampleConfig sampleLaterWorld sampleServices))
  ∧ Scanner.clock sampleLaterWorld 0 - 0 ≤ Duration.toMilliseconds (Duration.minutes 13).
Proof.
  destruct (budget_respected sampleConfig sampleLaterWorld sampleServices)
    as (_ & _ & Hstore & _ & _ & Hcut).
  split.
  - apply Hstore. left. vm_compute. reflexivity.
  - apply (Hcut 0 eq_refl eq_refl (Some 100) 0%nat). vm_compute. repeat constructor.
Defined.

(** A batch goes through when the queue accepts every message, and is cut
    short by a rejected notification otherwise. *)
Lemma malformed_records_are_isolated_witness :
  (Scanner.processBatch sampleConfig sampleWorld (Scanner.feed sampleWorld)
     sampleServices Scanner.noMetrics).1.1.1 = true
  ∧ ∃ r, r ∈ Scanner.feed sampleRejectingWorld
      ∧ Scanner.Notified r false
          ∈ (Scanner.processBatch sampleConfig sampleRejectingWorld
               (Scanner.feed sampleRejectingWorld) sampleServices Scanner.noMetrics).2.
Proof.
  split.
  - destruct (malformed_records_are_isolated sampleConfig sampleWorld
                (Scanner.feed sampleWorld) sampleServices Scanner.noMetrics)
      as (_ & _ & _ & _ & Hall).
    apply Hall. intros n. reflexivity.
  - destruct (malformed_records_are_isolated sampleConfig sampleRejectingWorld
                (Scanner.feed sampleRejectingWorld) sampleServices Scanner.noMetrics)
      as (_ & _ & _ & Hrej & _).
    apply Hrej. vm_compute. reflexivity.
Defined.

(** Staging pkg-a 1.0.0 into the empty bucket and staging it again. *)
Lemma staging_is_idempotent_witness :
  let c := sampleRecord 101 "a" in
  let a := Scanner.mkStagedArtifact "staged/pkg-a/v1.0.0/package.tgz" 7 in
  let objs := <["staged/pkg-a/v1.0.0/package.tgz" := "tarball"]> ∅ in
  Scanner.stage sampleConfig sampleWorld c objs = (inr a, objs).
Proof.
  intros c a objs.
  destruct (staging_is_idempotent sampleConfig sampleWorld c c ∅ a objs)
    as (_ & _ & H & _).
  - reflexivity.
  - reflexivity.
  - vm_compute. reflexivity.
  - exact H.
Defined.

(** The canary's dwell-time metric follows [opts] for the period. *)
Lemma metric_options_override_order_witness :
  period (NpmJsPackageCanary.metricDwellTime sampleCanaryConstants
            (Some (<["period" := VDuration (Duration.minutes 10)]> ∅)))
  = Some (VDuration (Duration.minutes 10)).
Proof.
  destruct (metric_options_override_order sampleDiscoveryConstants sampleCanaryConstants
              (λ _, None))
    as (_ & H & _).
  apply List.Forall_inv in H. destruct H as (_ & _ & _ & H & _).
  apply (H ∅ (Duration.minutes 10)). reflexivity.
Defined.

(** C10 as first stated does not hold of every accessor of the canary:
    [metricErrors] hands [opts] to the handler, whose metric takes its
    name from [opts] when [opts] has one. *)
Lemma canary_metricErrors_follows_opts :
  metricName (NpmJsPackageCanary.metricErrors
                (Some (<["metricName" := VString "Mine"]> ∅)))
    = Some (VString "Mine")
  ∧ metricName (NpmJsPackageCanary.metricErrors None) = Some (VString "Errors")
  ∧ ¬ Forall fixesNameAndNamespace
        (NpmJsPackageCanary.allMetricAccessors sampleCanaryConstants).
Proof.
  split; [reflexivity|]. split; [reflexivity|].
  intros H. unfold NpmJsPackageCanary.allMetricAccessors in H.
  apply Forall_app in H as [_ H]. apply List.Forall_inv in H.
  destruct (H (Some (<["metricName" := VString "Mine"]> ∅))) as [Hname _].
  vm_compute in Hname. discriminate.
Qed.

(* ===================================================================== *)
(** ** Further properties of the two constructs                          *)
(* ===================================================================== *)

Section ConstructWiring.
Variable K : DiscoveryConstants.
Variable KC : CanaryConstants.
Variable arch : option string.
Variable path : string.

Lemma prefix_append (p s : string) : String.prefix p (p +:+ s) = true.
Proof.
  induction p as [|a p IH]; simpl; [destruct s; reflexivity|].
  destruct (Ascii.ascii_dec a a) as [_|Hne]; [exact IH|congruence].
Qed.

Lemma prefix_split (p k : string) :
  String.prefix p k = true → ∃ s, k = p +:+ s.
Proof.
  revert k. induction p as [|a p IH]; intros k Hk.
  - exists k. reflexivity.
  - destruct k as [|b k]; simpl in Hk; [discriminate|].
    destruct (Ascii.ascii_dec a b) as [->|_]; [|discriminate].
    destruct (IH k Hk) as [s ->]. exists s. reflexivity.
Qed.

(** X1: the [logRetention] property of [DiscoveryProps] has no effect:
    two props that agree on the monitoring and on the queue give the same
    construct, scope and fields, whatever their [logRetention]. *)
Theorem discovery_ignores_logRetention (p1 p2 : DiscoveryProps) :
  monitoring p1 = monitoring p2 → queue p1 = queue p2 → queueUrl p1 = queueUrl p2 →
  Discovery.new K p1 = Discovery.new K p2.
Proof.
  destruct p1 as [m1 q1 u1 r1], p2 as [m2 q2 u2 r2]. simpl.
  intros -> -> ->. reflexivity.
Qed.

(** X2: the handler of Discovery is told, through its environment, of
    exactly the two resources it is granted: [BUCKET_NAME] names the
    staging bucket, on which it has read/write access, and [QUEUE_URL] is
    the URL of the queue of the props, to which it may send messages.  Its
    environment has no other variable, the construct makes no other grant,
    and neither grant is narrowed to a key pattern. *)
Theorem discovery_handler_access (props : DiscoveryProps) :
  let d := Discovery.new K props in
  ∃ h, Discovery.handler d = Some h
    ∧ environment h !! "BUCKET_NAME" = Some (BucketNameOf (Discovery.bucket d))
    ∧ environment h !! "QUEUE_URL" = Some (Literal (queueUrl props))
    ∧ dom (environment h) = {[ "BUCKET_NAME"; "QUEUE_URL" ]}
    ∧ grants (Discovery.node d)
        = [ mkGrant (Discovery.bucket d) ReadWrite "Default" None;
            mkGrant (queue props) SendMessages "Default" None ]
    ∧ (∀ g, g ∈ grants (Discovery.node d) →
         grantee g = "Default" ∧ keyPattern g = None
         ∧ (onResource g = Discovery.bucket d ∨ onResource g = queue props)).
Proof.
  intros d. eexists. split; [reflexivity|]. split; [reflexivity|]. split; [reflexivity|].
  split.
  { simpl. rewrite !dom_insert_L, dom_empty_L. apply set_eq. intros x.
    rewrite !elem_of_union, !elem_of_singleton, elem_of_empty. tauto. }
  split; [reflexivity|].
  intros g Hg. simpl in Hg.
  apply elem_of_cons in Hg as [->|Hg]; [simpl; auto|].
  apply list_elem_of_singleton in Hg as ->. simpl. auto.
Qed.

(** X3: within each construct the ids of the children are pairwise
    different, whatever the props, and looking a child up by its id gives
    the resource created under that id. *)
Theorem construct_ids_unique (props : DiscoveryProps) (cprops : NpmJsPackageCanaryProps) :
  let d := Discovery.node (Discovery.new K props) in
  let c := NpmJsPackageCanary.node (NpmJsPackageCanary.new KC arch path cprops) in
  NoDup (fst <$> children d)
  ∧ NoDup (fst <$> children c)
  ∧ Forall (λ ch, findChild ch.1 d = Some ch.2) (children d)
  ∧ Forall (λ ch, findChild ch.1 c = Some ch.2) (children c).
Proof.
  intros d c. split; [|split; [|split]].
  - apply (bool_decide_unpack _). reflexivity.
  - apply (bool_decide_unpack _). reflexivity.
  - repeat first [apply List.Forall_nil | apply List.Forall_cons]; reflexivity.
  - repeat first [apply List.Forall_nil | apply List.Forall_cons]; reflexivity.
Qed.

(** X4: in Discovery one duration is used throughout: the rate of the
    schedule rule, the timeout of the handler, the period of both alarms
    and the default period of every metric accessor are the same. *)
Theorem discovery_periods_agree (props : DiscoveryProps) :
  let d := Discovery.new K props in
  ∃ h r e n p, Discovery.handler d = Some h
    ∧ Discovery.scheduleRule d = Some r
    ∧ Discovery.alarm (Discovery.alarmErrors d) d = Some e
    ∧ Discovery.alarm (Discovery.alarmNoInvocations d) d = Some n
    ∧ timeout h = p
    ∧ schedule r = rate p
    ∧ period (metric e) = Some (VDuration p)
    ∧ period (metric n) = Some (VDuration p)
    ∧ Forall (λ a : string * (option JsObject → Metric),
                period (a.2 None) = Some (VDuration p))
             (Discovery.metricAccessors K).
Proof.
  intros d. do 5 eexists.
  repeat match goal with |- _ = _ ∧ _ => split; [reflexivity|] end.
  repeat first [apply List.Forall_nil | apply List.Forall_cons]; reflexivity.
Qed.

(** X5: the keys the staging bucket expires are exactly those made of the
    staged-artifact prefix followed by anything: such a key gets the one
    30-day expiration, and a key with an expiration is of that form. *)
Theorem staged_prefix_keys_expire (props : DiscoveryProps) :
  ∃ b, Discovery.stagingBucket (Discovery.new K props) = Some b
    ∧ (∀ rest, expirationsOf b (STAGED_KEY_PREFIX K +:+ rest) = [Duration.days 30])
    ∧ (∀ key, expirationsOf b key ≠ [] → ∃ rest, key = STAGED_KEY_PREFIX K +:+ rest).
Proof.
  eexists. split; [reflexivity|]. split.
  - intros rest. unfold expirationsOf, ruleCovers. simpl.
    rewrite prefix_append. reflexivity.
  - intros key. unfold expirationsOf, ruleCovers. simpl.
    destruct (String.prefix (STAGED_KEY_PREFIX K) key) eqn:Hp; [|intros H; destruct H; reflexivity].
    intros _. apply prefix_split. exact Hp.
Qed.

(** X6: on the figures of one period, with no more errors than
    invocations, the two alarms of Discovery never fire together, and
    neither fires exactly when there was an invocation and no error. *)
Theorem discovery_alarms_exclusive (props : DiscoveryProps)
    (errors invocations : Z) (olderE olderI : list Z) :
  0 ≤ errors ≤ invocations →
  let d := Discovery.new K props in
  ∃ e n, Discovery.alarm (Discovery.alarmErrors d) d = Some e
    ∧ Discovery.alarm (Discovery.alarmNoInvocations d) d = Some n
    ∧ alarmFires e (errors :: olderE) && alarmFires n (invocations :: olderI) = false
    ∧ (alarmFires e (errors :: olderE) || alarmFires n (invocations :: olderI) = false
       ↔ errors = 0 ∧ 1 ≤ invocations).
Proof.
  intros Hle d. do 2 eexists. split; [reflexivity|]. split; [reflexivity|].
  unfold alarmFires. simpl. rewrite !andb_true_r.
  destruct (Z.leb_spec 1 errors), (Z.ltb_spec invocations 1); simpl;
    (split; [reflexivity || lia|split; intros; try discriminate; lia]).
Qed.

End ConstructWiring.

Lemma discovery_ignores_logRetention_witness :
  Discovery.new sampleDiscoveryConstants sampleDiscoveryProps
  = Discovery.new sampleDiscoveryConstants
      (mkDiscoveryProps "Monitoring" "IngestionQueue" "https://sqs.example/ingestion"
         (Some ONE_WEEK)).
Proof.
  apply discovery_ignores_logRetention; reflexivity.
Defined.

Lemma discovery_handler_access_witness :
  grantee (mkGrant "IngestionQueue" SendMessages "Default" None) = "Default".
Proof.
  destruct (discovery_handler_access sampleDiscoveryConstants sampleDiscoveryProps)
    as (h & _ & _ & _ & _ & _ & Hall).
  apply (Hall (mkGrant "IngestionQueue" SendMessages "Default" None)).
  vm_compute. repeat constructor.
Defined.

Lemma staged_prefix_keys_expire_witness :
  ∃ rest, "staged/pkg/v1/package.tgz" = "staged/" +:+ rest.
Proof.
  destruct (staged_prefix_keys_expire sampleDiscoveryConstants sampleDiscoveryProps)
    as (b & Hb & _ & Hrest).
  apply Hrest. injection Hb as <-. vm_compute. discriminate.
Defined.

Lemma discovery_alarms_exclusive_witness :
  ∃ e n, Discovery.alarm "ErrorsAlarm"
           (Discovery.new sampleDiscoveryConstants sampleDiscoveryProps) = Some e
    ∧ Discovery.alarm "NoInvocationsAlarm"
           (Discovery.new sampleDiscoveryConstants sampleDiscoveryProps) = Some n
    ∧ alarmFires e [1] && alarmFires n [1] = false
    ∧ (alarmFires e [1] || alarmFires n [1] = false ↔ 1 = 0 ∧ 1 ≤ 1).
Proof.
  apply (discovery_alarms_exclusive sampleDiscoveryConstants sampleDiscoveryProps 1 1 [] []).
  lia.
Defined.

Section CanaryWiring.
Variable KC : CanaryConstants.
Variable arch : option string.
Variable path : string.

(** X7: the environment of the canary's handler is an object literal with
    computed keys, so a later key overwrites an earlier equal one.  The
    package name is always there under its key; each earlier variable is
    there under its key as long as no later key equals it; the literal
    has at most the four keys, and exactly four entries when they are
    pairwise different. *)
Theorem canary_environment (cprops : NpmJsPackageCanaryProps) :
  let c := NpmJsPackageCanary.new KC arch path cprops in
  ∃ h, NpmJsPackageCanary.handlerProps c = Some h
    ∧ environment h !! PACKAGE_NAME KC = Some (Literal (packageName cprops))
    ∧ (PACKAGE_CANARY_BUCKET_NAME KC ≠ PACKAGE_NAME KC →
         environment h !! PACKAGE_CANARY_BUCKET_NAME KC
           = Some (BucketNameOfImported (canaryBucket cprops)))
    ∧ (CONSTRUCT_HUB_BASE_URL KC ≠ PACKAGE_NAME KC →
       CONSTRUCT_HUB_BASE_URL KC ≠ PACKAGE_CANARY_BUCKET_NAME KC →
         environment h !! CONSTRUCT_HUB_BASE_URL KC
           = Some (Literal (constructHubBaseUrl cprops)))
    ∧ ("AWS_EMF_ENVIRONMENT" ≠ PACKAGE_NAME KC →
       "AWS_EMF_ENVIRONMENT" ≠ PACKAGE_CANARY_BUCKET_NAME KC →
       "AWS_EMF_ENVIRONMENT" ≠ CONSTRUCT_HUB_BASE_URL KC →
         environment h !! "AWS_EMF_ENVIRONMENT" = Some (Literal "Local"))
    ∧ dom (environment h)
        = {[ "AWS_EMF_ENVIRONMENT"; CONSTRUCT_HUB_BASE_URL KC;
             PACKAGE_CANARY_BUCKET_NAME KC; PACKAGE_NAME KC ]}
    ∧ (NoDup [ "AWS_EMF_ENVIRONMENT"; CONSTRUCT_HUB_BASE_URL KC;
               PACKAGE_CANARY_BUCKET_NAME KC; PACKAGE_NAME KC ] →
         size (environment h) = 4%nat).
Proof.
  intros c. eexists. split; [reflexivity|]. simpl.
  split; [apply lookup_insert_eq|].
  split. { intros H1. rewrite lookup_insert_ne by congruence. apply lookup_insert_eq. }
  split. { intros H1 H2. rewrite !lookup_insert_ne by congruence. apply lookup_insert_eq. }
  split. { intros H1 H2 H3. rewrite !lookup_insert_ne by congruence. apply lookup_insert_eq. }
  split.
  { rewrite !dom_insert_L, dom_empty_L. apply set_eq. intros x.
    rewrite !elem_of_union, !elem_of_singleton, elem_of_empty. tauto. }
  intros Hnd.
  rewrite !NoDup_cons, !not_elem_of_cons in Hnd.
  destruct Hnd as ((H12 & H13 & H14 & _) & (H23 & H24 & _) & (H34 & _) & _).
  rewrite !map_size_insert_None, map_size_empty; [reflexivity|..].
  - apply lookup_empty.
  - rewrite lookup_insert_ne by congruence. apply lookup_empty.
  - rewrite !lookup_insert_ne by congruence. apply lookup_empty.
  - rewrite !lookup_insert_ne by congruence. apply lookup_empty.
Qed.

(** X8: the canary makes one grant, read/write on the bucket of the props
    for its own handler, narrowed to the keys between the state prefix and
    the state suffix; and the rule that triggers the handler depends on
    that grant, so it cannot run before the permission exists.  The
    handler has no reserved concurrency. *)
Theorem canary_schedule_waits_for_grant (cprops : NpmJsPackageCanaryProps) :
  let c := NpmJsPackageCanary.new KC arch path cprops in
  ∃ g h, grants (NpmJsPackageCanary.node c) = [g]
    ∧ onResource g = canaryBucket cprops
    ∧ access g = ReadWrite
    ∧ grantee g = NpmJsPackageCanary.handler c
    ∧ keyPattern g = Some (STATE_PREFIX KC +:+ "*" +:+ STATE_SUFFIX KC)
    ∧ NpmJsPackageCanary.handlerProps c = Some h
    ∧ reservedConcurrentExecutions h = None
    ∧ dependencies (NpmJsPackageCanary.node c) ≠ []
    ∧ Forall (λ dep, dep.2 ∈ grants (NpmJsPackageCanary.node c)
                ∧ ∃ r, findChild dep.1 (NpmJsPackageCanary.node c) = Some (RRule r)
                       ∧ targets r = [grantee dep.2])
             (dependencies (NpmJsPackageCanary.node c)).
Proof.
  intros c. do 2 eexists.
  repeat match goal with |- _ = _ ∧ _ => split; [reflexivity|] end.
  split; [discriminate|].
  apply List.Forall_cons; [|apply List.Forall_nil].
  split; [left|]. eexists. split; reflexivity.
Qed.

Lemma canary_literal_eq (base o1 o2 : JsObject) (n s : JsValue) :
  (∀ k, k ≠ "metricName" → k ≠ "namespace" → o1 !! k = o2 !! k) →
  <["namespace" := s]> (<["metricName" := n]> (o1 ∪ base))
  = <["namespace" := s]> (<["metricName" := n]> (o2 ∪ base)).
Proof.
  intros Hsame. apply map_eq. intros k.
  destruct (decide (k = "namespace")) as [->|Hn];
    [rewrite !lookup_insert_eq; reflexivity|].
  rewrite !(lookup_insert_ne _ "namespace" k) by congruence.
  destruct (decide (k = "metricName")) as [->|Hm];
    [rewrite !lookup_insert_eq; reflexivity|].
  rewrite !(lookup_insert_ne _ "metricName" k) by congruence.
  rewrite !lookup_spread, (Hsame k Hm Hn). reflexivity.
Qed.

(** X10: an accessor of the canary that builds its own metric ignores a
    [metricName] and a [namespace] in [opts] altogether: with them set,
    removed or left as they are, the metric is the same; and an empty
    [opts] gives the metric of no [opts]. *)
Theorem canary_metric_name_not_in_opts :
  Forall (λ a : string * (option JsObject → Metric),
      a.2 (Some ∅) = a.2 None
      ∧ (∀ (opts : JsObject) v w,
           a.2 (Some (<["metricName" := v]> (<["namespace" := w]> opts))) = a.2 (Some opts))
      ∧ (∀ opts : JsObject,
           a.2 (Some (delete "metricName" (delete "namespace" opts))) = a.2 (Some opts)))
    (NpmJsPackageCanary.metricAccessors KC).
Proof.
  unfold NpmJsPackageCanary.metricAccessors.
  repeat first [apply List.Forall_nil | apply List.Forall_cons].
  all: simpl; split; [|split].
  all: try (intros opts v w); try (intros opts).
  all: unfold NpmJsPackageCanary.metricDwellTime, NpmJsPackageCanary.metricTimeToCatalog,
         NpmJsPackageCanary.metricTrackedVersionCount,
         NpmJsPackageCanary.metricEstimatedNpmReplicaLag, objectLiteral; simpl.
  all: apply (f_equal mkMetric).
  all: try (rewrite map_empty_union; reflexivity).
  all: apply canary_literal_eq; intros k Hm Hn.
  all: rewrite ?lookup_insert_ne, ?lookup_delete_ne by congruence; reflexivity.
Qed.

End CanaryWiring.

Section MetricOptions.
Variable K : DiscoveryConstants.
Variable KC : CanaryConstants.
Variable normalizeStatistic : string → option JsValue.

(** X9: for every accessor that builds a metric, the nine of Discovery
    and the four of the canary, an empty [opts] gives the metric of no
    [opts], and the period of the metric is: the construct's default (15
    minutes, 1 minute) when [opts] has no period; the period of [opts]
    when that is a valid one; the 5 minutes of the Metric class, not the
    construct's default, when [opts] carries an undefined or otherwise
    falsy period; and none, the constructor throwing, when [opts] carries
    an invalid period (90 seconds, say) or a value that is no Duration.
    A statistic that [opts] sets to undefined likewise gives Average,
    whatever the statistic of the accessor. *)
Theorem metric_period_and_statistic_defaults :
  Forall (λ a : string * (option JsObject → Metric),
      a.2 (Some ∅) = a.2 None
      ∧ (∀ opts : JsObject,
           period (a.2 (Some opts)) =
             match opts !! "period" with
             | None => Some (VDuration Discovery.timeout)
             | Some (VDuration d) => if validPeriod d then Some (VDuration d) else None
             | Some v => if truthy v then None else Some (VDuration (Duration.minutes 5))
             end)
      ∧ (∀ opts : JsObject,
           period (a.2 (Some (<["period" := VUndefined]> opts)))
             = Some (VDuration (Duration.minutes 5))
           ∧ period (a.2 (Some (<["period" := VDuration (Duration.seconds 90)]> opts))) = None
           ∧ constructs normalizeStatistic
               (a.2 (Some (<["period" := VDuration (Duration.seconds 90)]> opts))) = false
           ∧ statistic normalizeStatistic (a.2 (Some (<["statistic" := VUndefined]> opts)))
               = Some (VStatistic AVERAGE)))
    (Discovery.metricAccessors K)
  ∧ Forall (λ a : string * (option JsObject → Metric),
      a.2 (Some ∅) = a.2 None
      ∧ (∀ opts : JsObject,
           period (a.2 (Some opts)) =
             match opts !! "period" with
             | None => Some (VDuration (Duration.minutes 1))
             | Some (VDuration d) => if validPeriod d then Some (VDuration d) else None
             | Some v => if truthy v then None else Some (VDuration (Duration.minutes 5))
             end)
      ∧ (∀ opts : JsObject,
           period (a.2 (Some (<["period" := VUndefined]> opts)))
             = Some (VDuration (Duration.minutes 5))
           ∧ period (a.2 (Some (<["period" := VDuration (Duration.seconds 90)]> opts))) = None
           ∧ constructs normalizeStatistic
               (a.2 (Some (<["period" := VDuration (Duration.seconds 90)]> opts))) = false
           ∧ statistic normalizeStatistic (a.2 (Some (<["statistic" := VUndefined]> opts)))
               = Some (VStatistic AVERAGE)))
    (NpmJsPackageCanary.metricAccessors KC).
Proof.
  split.
  - unfold Discovery.metricAccessors.
    repeat first [apply List.Forall_nil | apply List.Forall_cons].
    all: simpl; unfold Discovery.metricBatchProcessingTime, Discovery.metricChangeCount,
           Discovery.metricPackageVersionAge, Discovery.metricPackageVersionCount,
           Discovery.metricRelevantPackageVersions, Discovery.metricRemainingTime,
           Discovery.metricStagingFailureCount, Discovery.metricStagingTime,
           Discovery.metricUnprocessableEntity, objectLiteral; simpl.
    all: split; [apply (f_equal mkMetric); apply map_empty_union|].
    all: split; [intros opts; unfold period; simpl; rewrite lookup_spread;
                 destruct (opts !! "period") as [[]|]; reflexivity|].
    all: intros opts; unfold constructs, period, statistic; simpl.
    all: rewrite !lookup_spread, !lookup_insert_eq; repeat split; reflexivity.
  - unfold NpmJsPackageCanary.metricAccessors.
    repeat first [apply List.Forall_nil | apply List.Forall_cons].
    all: simpl; unfold NpmJsPackageCanary.metricDwellTime,
           NpmJsPackageCanary.metricTimeToCatalog,
           NpmJsPackageCanary.metricTrackedVersionCount,
           NpmJsPackageCanary.metricEstimatedNpmReplicaLag, objectLiteral; simpl.
    all: split; [apply (f_equal mkMetric); rewrite map_empty_union; reflexivity|].
    all: split; [intros opts; unfold period; simpl;
                 rewrite !lookup_insert_ne by discriminate; rewrite lookup_spread;
                 destruct (opts !! "period") as [[]|]; reflexivity|].
    all: intros opts; unfold constructs, period, statistic; simpl.
    all: rewrite !lookup_insert_ne by discriminate.
    all: rewrite !lookup_spread, !lookup_insert_eq; repeat split; reflexivity.
Qed.

Lemma metrics_distinct_by_name (accs : list (string * (option JsObject → Metric)))
    (opts : option JsObject) :
  Forall (λ a, metricName (a.2 opts) = Some (VString a.1)) accs →
  NoDup (fst <$> accs) →
  NoDup ((λ a : string * (option JsObject → Metric), a.2 opts) <$> accs).
Proof.
  intros Hname Hnd.
  apply (NoDup_fmap_1 metricName).
  rewrite <- list_fmap_compose.
  assert (Heq : (metricName ∘ (λ a : string * (option JsObject → Metric), a.2 opts)) <$> accs
                = (λ s, Some (VString s)) <$> (fst <$> accs)).
  { rewrite <- list_fmap_compose. apply Forall_fmap_ext_1.
    eapply Forall_impl; [exact Hname|]. intros a Ha. exact Ha. }
  rewrite Heq. apply NoDup_fmap_2; [|exact Hnd].
  intros x y Hxy. congruence.
Qed.

(** X11: when the metric names of the constants are pairwise different,
    the accessors of a construct give pairwise different metrics: those
    of Discovery for no [opts] and for every [opts] without a
    [metricName], those of the canary that build their own metric for
    every [opts]. *)
Theorem metrics_pairwise_distinct :
  (NoDup (fst <$> Discovery.metricAccessors K) →
     ∀ opts : option JsObject, (∀ o, opts = Some o → o !! "metricName" = None) →
       NoDup ((λ a : string * (option JsObject → Metric), a.2 opts)
                <$> Discovery.metricAccessors K))
  ∧ (NoDup (fst <$> NpmJsPackageCanary.metricAccessors KC) →
     ∀ opts : option JsObject,
       NoDup ((λ a : string * (option JsObject → Metric), a.2 opts)
                <$> NpmJsPackageCanary.metricAccessors KC)).
Proof.
  split.
  - intros Hnd opts Hno. apply metrics_distinct_by_name; [|exact Hnd].
    unfold Discovery.metricAccessors.
    repeat first [apply List.Forall_nil | apply List.Forall_cons].
    all: simpl; unfold metricName; simpl; unfold objectLiteral; simpl.
    all: destruct opts as [o|]; simpl; [|reflexivity].
    all: rewrite lookup_spread, (Hno o eq_refl); reflexivity.
  - intros Hnd opts. apply metrics_distinct_by_name; [|exact Hnd].
    unfold NpmJsPackageCanary.metricAccessors.
    repeat first [apply List.Forall_nil | apply List.Forall_cons].
    all: simpl; unfold metricName; simpl; unfold objectLiteral; simpl.
    all: rewrite lookup_insert_ne by discriminate; apply lookup_insert_eq.
Qed.

End MetricOptions.

Lemma canary_environment_witness :
  ∃ h, NpmJsPackageCanary.handlerProps
         (NpmJsPackageCanary.new sampleCanaryConstants None "Hub"
            (mkNpmJsPackageCanaryProps "CanaryBucket" "https://hub.example" "construct-hub-probe"))
       = Some h
    ∧ environment h !! "PACKAGE_CANARY_BUCKET_NAME" = Some (BucketNameOfImported "CanaryBucket")
    ∧ size (environment h) = 4%nat.
Proof.
  destruct (canary_environment sampleCanaryConstants None "Hub"
              (mkNpmJsPackageCanaryProps "CanaryBucket" "https://hub.example"
                 "construct-hub-probe"))
    as (h & Hh & _ & Hbucket & _ & _ & _ & Hsize).
  exists h. split; [exact Hh|]. split.
  - apply Hbucket. discriminate.
  - apply Hsize. apply (bool_decide_unpack _). reflexivity.
Defined.

Lemma metrics_pairwise_distinct_witness :
  NoDup ((λ a : string * (option JsObject → Metric),
            a.2 (Some (<["period" := VDuration (Duration.minutes 5)]> ∅)))
           <$> Discovery.metricAccessors sampleDiscoveryConstants).
Proof.
  destruct (metrics_pairwise_distinct sampleDiscoveryConstants sampleCanaryConstants)
    as [H _].
  apply H.
  - apply (bool_decide_unpack _). reflexivity.
  - intros o Ho. injection Ho as <-. reflexivity.
Defined.

Section References.
Variable K : DiscoveryConstants.
Variable KC : CanaryConstants.
Variable arch : option string.
Variable path : string.

(** X12: neither construct leaves a reference dangling: every target of
    a rule, every grantee of a grant and every function handed to the
    monitoring is a lambda function the construct has created, each rule
    has a target, and the public fields of Discovery name a bucket and two
    alarms it has created. *)
Theorem construct_references_resolve (props : DiscoveryProps)
    (cprops : NpmJsPackageCanaryProps) :
  let d := Discovery.new K props in
  let c := NpmJsPackageCanary.new KC arch path cprops in
  (ruleTargets (Discovery.node d) ≠ []
   ∧ Forall (λ t, isFunctionIn (Discovery.node d) t = true) (ruleTargets (Discovery.node d))
   ∧ Forall (λ g, isFunctionIn (Discovery.node d) (grantee g) = true)
            (grants (Discovery.node d))
   ∧ Forall (λ w, isFunctionIn (Discovery.node d) w.2 = true) (watched (Discovery.node d))
   ∧ (∃ b, findChild (Discovery.bucket d) (Discovery.node d) = Some (RBucket b))
   ∧ (∃ a, findChild (Discovery.alarmErrors d) (Discovery.node d) = Some (RAlarm a))
   ∧ (∃ a, findChild (Discovery.alarmNoInvocations d) (Discovery.node d) = Some (RAlarm a)))
  ∧ (ruleTargets (NpmJsPackageCanary.node c) ≠ []
     ∧ Forall (λ t, isFunctionIn (NpmJsPackageCanary.node c) t = true)
              (ruleTargets (NpmJsPackageCanary.node c))
     ∧ Forall (λ g, isFunctionIn (NpmJsPackageCanary.node c) (grantee g) = true)
              (grants (NpmJsPackageCanary.node c))
     ∧ isFunctionIn (NpmJsPackageCanary.node c) (NpmJsPackageCanary.handler c) = true).
Proof.
  intros d c. split.
  - split; [discriminate|].
    repeat split;
      repeat first [apply List.Forall_nil | apply List.Forall_cons | reflexivity
                   | eexists; reflexivity].
  - split; [discriminate|].
    repeat split;
      repeat first [apply List.Forall_nil | apply List.Forall_cons | reflexivity].
Qed.

End References.
